(** * Channel structure of the Discord client: permission overwrites and
      guarded actions

    A shallow embedding of [src/structures/channel.ts].  [createChannel]
    builds a channel object around a raw payload [data]; the methods of the
    object close over [data] and over the object itself ([channel]).  Here
    every method is a function of [data] (and of [channel] where the source
    reads the object), running in a small monad that threads the [World]:
    the channel cache, the heap of arrays the caller shares with a method,
    and the trace of the calls made to the external collaborators (the guild
    permission oracle [botHasPermission], the transport [RequestManager] and
    the logger [logYellow]).  A JavaScript [throw] ends the computation but
    keeps the world reached so far; for an [async] method the [Outcome] is
    the way its promise settles, [Thrown] standing for a rejection. *)

From Stdlib Require Import ZArith Lia.
From stdpp Require Import base option list strings gmap pretty.

Local Open Scope Z_scope.

(** ** JavaScript values used by the module *)

(** [ToInt32] of an integral number: the operands of [&] are reduced to
    signed 32-bit integers. *)
Definition ToInt32 (n : Z) : Z :=
  let m := n mod 2 ^ 32 in
  if 2 ^ 31 <=? m then m - 2 ^ 32 else m.

(** [a & b]. *)
Definition bitand (a b : Z) : Z := Z.land (ToInt32 a) (ToInt32 b).

(** Truthiness of a number (integral, so never NaN): non-zero. *)
Definition truthy_number (n : Z) : bool := negb (n =? 0).

(** Truthiness of a boolean. *)
Definition truthy_bool (b : bool) : bool := b.

(** Truthiness of a string: non-empty. *)
Definition truthy_string (s : string) : bool :=
  match s with EmptyString => false | String _ _ => true end.

(** Truthiness of an optional value is that of the value when it is
    defined; [undefined] is falsy. *)
Definition truthy_opt {A} (truthy : A -> bool) (o : option A) : bool :=
  match o with Some a => truthy a | None => false end.

(** [a || b] on optional objects (an object is always truthy). *)
Definition or_else {A} (a b : option A) : option A :=
  match a with Some _ => a | None => b end.

(** [arr.splice(start, count)] without inserted items, for non-negative
    integral arguments: the removed elements and what is left in [arr]. *)
Definition splice {A} (start count : nat) (arr : list A) : list A * list A :=
  (take count (drop start arr), take start arr ++ drop (start + count) arr).

(** JSON values: transport payloads, rejection reasons, invite and edit
    options.  The module never looks inside one, except to map over an
    array. *)
#[local] Unset Elimination Schemes.
Inductive Json :=
| JNull
| JBool (b : bool)
| JNumber (n : Z)
| JString (s : string)
| JArray (items : list Json)
| JObject (fields : list (string * Json)).
#[local] Set Elimination Schemes.

(** A reference to an array of message ids on the heap. *)
Abbreviation ArrayRef := nat (only parsing).

(** ** Payload types ([types/channel.ts], the fields the module reads) *)

Module Perm.
(** One raw permission overwrite: [perm.id], [perm.allow], [perm.deny]. *)
Record Raw_Overwrite := mk { id : string; allow : Z; deny : Z }.
End Perm.

Module Data.
(** The raw channel payload: [data.id], [data.guild_id], ... *)
Record ChannelCreatePayload := mk {
  id : string;
  guild_id : option string;
  last_message_id : option string;
  user_limit : option Z;
  rate_limit_per_user : option Z;
  parent_id : option string;
  last_pin_timestamp : option string;
  permission_overwrites : option (list Perm.Raw_Overwrite);
  nsfw : option bool
}.
End Data.

Module Msg.
(** [MessageContent]: [content.content], [content.tts]. *)
Record MessageContent := mk { content : option string; tts : option bool }.
End Msg.

Module Opt.
(** [GetMessages], [GetMessagesAfter], [GetMessagesBefore],
    [GetMessagesAround]: all carry an optional [limit]. *)
Record GetMessages := mk {
  limit : option Z;
  after : option string;
  before : option string;
  around : option string
}.
End Opt.

(** The messages of [types/errors.ts] thrown by the module. *)
Inductive Errors :=
| MISSING_VIEW_CHANNEL
| MISSING_READ_MESSAGE_HISTORY
| MISSING_SEND_MESSAGES
| MISSING_SEND_TTS_MESSAGE
| MESSAGE_MAX_LENGTH
| MISSING_MANAGE_MESSAGES
| DELETE_MESSAGES_MIN
| MISSING_MANAGE_CHANNELS
| MISSING_CREATE_INSTANT_INVITE
| MISSING_MANAGE_WEBHOOKS.

(** The two kinds of error the module raises itself. *)
Definition PermissionDenied (e : Errors) : bool :=
  match e with
  | MESSAGE_MAX_LENGTH | DELETE_MESSAGES_MIN => false
  | _ => true
  end.

Definition ValidationFailed (e : Errors) : bool :=
  match e with
  | MESSAGE_MAX_LENGTH | DELETE_MESSAGES_MIN => true
  | _ => false
  end.

(** The flags of [types/permission.ts] the module names; their numeric
    values are supplied with the collaborators. *)
Record PermissionFlags := {
  CREATE_INSTANT_INVITE : Z;
  MANAGE_CHANNELS : Z;
  VIEW_CHANNEL : Z;
  SEND_MESSAGES : Z;
  SEND_TTS_MESSAGES : Z;
  MANAGE_MESSAGES : Z;
  READ_MESSAGE_HISTORY : Z;
  MANAGE_WEBHOOKS : Z
}.

(** The paths of [constants/discord.ts], by name. *)
Inductive Endpoint :=
| CHANNEL_MESSAGE (id messageID : string)
| CHANNEL_MESSAGES (id : string)
| CHANNEL_PINS (id : string)
| CHANNEL_BULK_DELETE (id : string)
| CHANNEL_INVITES (id : string)
| CHANNEL_WEBHOOKS (id : string)
| GUILD_CHANNELS (id : string).

Inductive Method := GET | POST | PATCH.

(** The second argument of a transport call. *)
Inductive Body :=
| NoBody
| Query (options : option Opt.GetMessages)
| MessageBody (content : Msg.MessageContent)
| BulkDelete (messages : list string) (reason : option string)
| JsonBody (options : Json).

Record Request := { method : Method; path : Endpoint; body : Body }.

(** What a transport call hands back: a promise, settled one way or the
    other. *)
Inductive Promise :=
| Resolved (payload : Json)
| Rejected (reason : Json).

(** The warning printed by [deleteMessages]. *)
Definition bulk_delete_warning : string :=
  "This endpoint only accepts a maximum of 100 messages. Deleting the first 100 message ids provided.".

(** ** The channel object *)

(** A normalized overwrite: the raw one (the spread [...perm]) with [allow]
    and [deny] replaced by what [calculatePermissions] makes of them. *)
Record Overwrite (PermissionList : Type) := {
  overwrite_raw : Perm.Raw_Overwrite;
  allow : PermissionList;
  deny : PermissionList
}.
Arguments Build_Overwrite {PermissionList}.
Arguments overwrite_raw {PermissionList} o.
Arguments allow {PermissionList} o.
Arguments deny {PermissionList} o.

(** The object built by [createChannel].  The fields copied by the spread
    [...data] are read through [raw]. *)
Record Channel (PermissionList : Type) := {
  raw : Data.ChannelCreatePayload;
  guildID : option string;
  lastMessageID : option string;
  userLimit : option Z;
  rateLimitPerUser : option Z;
  parentID : option string;
  lastPinTimestamp : option string;
  permissions : list (Overwrite PermissionList);
  nsfw : bool;
  mention : string
}.
Arguments Build_Channel {PermissionList}.
Arguments raw {PermissionList} c.
Arguments guildID {PermissionList} c.
Arguments lastMessageID {PermissionList} c.
Arguments userLimit {PermissionList} c.
Arguments rateLimitPerUser {PermissionList} c.
Arguments parentID {PermissionList} c.
Arguments lastPinTimestamp {PermissionList} c.
Arguments permissions {PermissionList} c.
Arguments nsfw {PermissionList} c.
Arguments mention {PermissionList} c.

(** ** World, events and the monad *)

Inductive Event :=
| OracleCall (guildID : string) (required : list Z) (answer : bool)
| TransportCall (request : Request)
| Warning (message : string).

Record World (PermissionList : Type) := {
  cache : gmap string (Channel PermissionList);
  arrays : gmap nat (list string);
  trace : list Event
}.
Arguments Build_World {PermissionList}.
Arguments cache {PermissionList} w.
Arguments arrays {PermissionList} w.
Arguments trace {PermissionList} w.

Inductive Exception :=
| Error (message : Errors)
| TypeError
| TransportFailure (reason : Json).

Inductive Outcome (A : Type) :=
| Returned (a : A)
| Thrown (x : Exception).
Arguments Returned {A} a.
Arguments Thrown {A} x.

(** A computation: from a world to the way it ends and the world it
    leaves. *)
Definition Computation (PermissionList A : Type) : Type :=
  World PermissionList -> Outcome A * World PermissionList.

Definition ret {P A} (a : A) : Computation P A := fun w => (Returned a, w).

Definition throw {P A} (x : Exception) : Computation P A := fun w => (Thrown x, w).

Definition bind {P A B} (c : Computation P A) (k : A -> Computation P B) :
    Computation P B :=
  fun w =>
    match c w with
    | (Returned a, w') => k a w'
    | (Thrown x, w') => (Thrown x, w')
    end.

Notation "x <- c ;; k" := (bind c (fun x => k))
  (at level 100, c at next level, right associativity).
Notation "c ;;; k" := (bind c (fun _ => k))
  (at level 100, right associativity).

(** [if (b) stmt] where [stmt] returns nothing. *)
Definition when {P} (b : bool) (c : Computation P unit) : Computation P unit :=
  if b then c else ret tt.

(** [if (s) { body }] for an optional string [s]: the body runs with the
    value of [s] when it is truthy. *)
Definition when_truthy {P} (s : option string) (body : string -> Computation P unit) :
    Computation P unit :=
  match s with
  | Some g => if truthy_string g then body g else ret tt
  | None => ret tt
  end.

(** Run a computation for its effects and its way of ending. *)
Definition discard {P A} (c : Computation P A) : Computation P unit :=
  _ <- c ;; ret tt.

(** [arr.every(cb)]: stops at the first element whose callback is falsy. *)
Fixpoint every {P A} (cb : A -> Computation P bool) (arr : list A) :
    Computation P bool :=
  match arr with
  | [] => ret true
  | x :: rest => b <- cb x ;; if b then every cb rest else ret false
  end.

Definition log {P} (ev : Event) (w : World P) : World P :=
  {| cache := cache w; arrays := arrays w; trace := trace w ++ [ev] |}.

(** [logYellow(message)]. *)
Definition logYellow {P} (message : string) : Computation P unit :=
  fun w => (Returned tt, log (Warning message) w).

(** [await promise] inside an async function. *)
Definition await {P} (p : Promise) : Computation P Json :=
  match p with
  | Resolved payload => ret payload
  | Rejected reason => throw (TransportFailure reason)
  end.

(** [ids.length] and [ids.splice(start, count)] on the array a reference
    denotes; a reference that denotes no array behaves as [undefined]. *)
Definition array_length {P} (ids : ArrayRef) : Computation P nat :=
  fun w =>
    match arrays w !! ids with
    | Some l => (Returned (length l), w)
    | None => (Thrown TypeError, w)
    end.

Definition array_splice {P} (ids : ArrayRef) (start count : nat) :
    Computation P (list string) :=
  fun w =>
    match arrays w !! ids with
    | Some l =>
        let '(removed, remaining) := splice start count l in
        (Returned removed,
         {| cache := cache w;
            arrays := <[ids := remaining]> (arrays w);
            trace := trace w |})
    | None => (Thrown TypeError, w)
    end.

(** Modelled from the spec: [updateChannelCache] of [module/client.ts] is
    not part of the sources; the cache [put] is an unconditional overwrite
    of the entry for the id. *)
Definition updateChannelCache {P} (id : string) (channel : Channel P) :
    Computation P unit :=
  fun w =>
    (Returned tt,
     {| cache := <[id := channel]> (cache w);
        arrays := arrays w;
        trace := trace w |}).

(** ** External collaborators *)

(** What the module imports and calls: the message factory of
    [structures/message.ts], [calculatePermissions] and the guild oracle
    [botHasPermission] of [utils/permissions.ts], the numeric values of the
    permission flags, and the transport of [module/requestManager.ts]. *)
Class Collaborators (Message PermissionList : Type) := {
  createMessage : Json -> Message;
  calculatePermissions : Z -> PermissionList;
  Permissions : PermissionFlags;
  botHasPermission : string -> list Z -> bool;
  RequestManager : Request -> Promise
}.

(** The same collaborators with another oracle. *)
Definition with_oracle {Message PermissionList}
    (C : Collaborators Message PermissionList)
    (oracle : string -> list Z -> bool) : Collaborators Message PermissionList :=
  {| createMessage := @createMessage _ _ C;
     calculatePermissions := @calculatePermissions _ _ C;
     Permissions := @Permissions _ _ C;
     botHasPermission := oracle;
     RequestManager := @RequestManager _ _ C |}.

Section Model.

Context {Message PermissionList : Type} {C : Collaborators Message PermissionList}.

Local Abbreviation M := (Computation PermissionList).

(** A call of the oracle. *)
Definition call_botHasPermission (guildID : string) (required : list Z) : M bool :=
  fun w =>
    let answer := botHasPermission guildID required in
    (Returned answer, log (OracleCall guildID required answer) w).

Definition send (request : Request) : M Promise :=
  fun w => (Returned (RequestManager request), log (TransportCall request) w).

Definition RequestManager_get (p : Endpoint) (b : Body) : M Promise :=
  send {| method := GET; path := p; body := b |}.

Definition RequestManager_post (p : Endpoint) (b : Body) : M Promise :=
  send {| method := POST; path := p; body := b |}.

Definition RequestManager_patch (p : Endpoint) (b : Body) : M Promise :=
  send {| method := PATCH; path := p; body := b |}.

(** [result.map((res) => createMessage(res))]: a payload that is no array
    has no [map]. *)
Definition map_createMessage (result : Json) : M (list Message) :=
  match result with
  | JArray items => ret (map createMessage items)
  | _ => throw TypeError
  end.

(** ** The methods of the channel object *)

(** [data.permission_overwrites?.find(pred)]. *)
Definition find_overwrite (data : Data.ChannelCreatePayload)
    (pred : Perm.Raw_Overwrite -> bool) : option Perm.Raw_Overwrite :=
  match Data.permission_overwrites data with
  | Some overwrites => find pred overwrites
  | None => None
  end.

(** The callback of [permissions.every] in [hasPermission]. *)
Definition check_flag (overwrite : Perm.Raw_Overwrite)
    (channel : Channel PermissionList) (perm : Z) : M bool :=
  if truthy_number (bitand (Perm.deny overwrite) perm) then ret false
  else if truthy_number (bitand (Perm.allow overwrite) perm) then ret true
  else match guildID channel with
       | Some g =>
           if truthy_string g then call_botHasPermission g [perm]
           else ret false
       | None => ret false
       end.

Definition hasPermission (data : Data.ChannelCreatePayload)
    (channel : Channel PermissionList) (id : string) (required : list Z) : M bool :=
  let overwrite :=
    or_else
      (find_overwrite data (fun perm => bool_decide (Perm.id perm = id)))
      (find_overwrite data
         (fun perm => bool_decide (Some (Perm.id perm) = guildID channel))) in
  match overwrite with
  | None => ret false
  | Some overwrite => every (check_flag overwrite channel) required
  end.

(** [if (!botHasPermission(guild, [perm])) throw new Error(err)]. *)
Definition require (g : string) (perm : Z) (err : Errors) : M unit :=
  granted <- call_botHasPermission g [perm] ;;
  when (negb granted) (throw (Error err)).

Definition getMessage (data : Data.ChannelCreatePayload) (id : string) : M Message :=
  when_truthy (Data.guild_id data) (fun g =>
    require g (VIEW_CHANNEL Permissions) MISSING_VIEW_CHANNEL ;;;
    require g (READ_MESSAGE_HISTORY Permissions) MISSING_READ_MESSAGE_HISTORY) ;;;
  promise <- RequestManager_get (CHANNEL_MESSAGE (Data.id data) id) NoBody ;;
  result <- await promise ;;
  ret (createMessage result).

(** [options?.limit && options.limit > 100]. *)
Definition limit_exceeded (options : option Opt.GetMessages) : bool :=
  match options with
  | Some o =>
      match Opt.limit o with
      | Some l => truthy_number l && (100 <? l)
      | None => false
      end
  | None => false
  end.

Definition getMessages (data : Data.ChannelCreatePayload)
    (options : option Opt.GetMessages) : M (option (list Message)) :=
  when_truthy (Data.guild_id data) (fun g =>
    require g (VIEW_CHANNEL Permissions) MISSING_VIEW_CHANNEL ;;;
    require g (READ_MESSAGE_HISTORY Permissions) MISSING_READ_MESSAGE_HISTORY) ;;;
  if limit_exceeded options then ret None
  else
    promise <- RequestManager_get (CHANNEL_MESSAGES (Data.id data)) (Query options) ;;
    result <- await promise ;;
    messages <- map_createMessage result ;;
    ret (Some messages).

Definition getPins (data : Data.ChannelCreatePayload) : M (list Message) :=
  promise <- RequestManager_get (CHANNEL_PINS (Data.id data)) NoBody ;;
  result <- await promise ;;
  map_createMessage result.

(** [if (typeof content === "string") content = { content }]. *)
Definition normalize (content : string + Msg.MessageContent) : Msg.MessageContent :=
  match content with
  | inl s => {| Msg.content := Some s; Msg.tts := None |}
  | inr c => c
  end.

(** [content.content && content.content.length > 2000]. *)
Definition too_long (content : Msg.MessageContent) : bool :=
  match Msg.content content with
  | Some s => truthy_string s && (2000 <? String.length s)%nat
  | None => false
  end.

Definition sendMessage (data : Data.ChannelCreatePayload)
    (content : string + Msg.MessageContent) : M Message :=
  let content := normalize content in
  when_truthy (Data.guild_id data) (fun g =>
    require g (SEND_MESSAGES Permissions) MISSING_SEND_MESSAGES ;;;
    if truthy_opt truthy_bool (Msg.tts content)
    then require g (SEND_TTS_MESSAGES Permissions) MISSING_SEND_TTS_MESSAGE
    else ret tt) ;;;
  when (too_long content) (throw (Error MESSAGE_MAX_LENGTH)) ;;;
  promise <- RequestManager_post (CHANNEL_MESSAGES (Data.id data))
               (MessageBody content) ;;
  result <- await promise ;;
  ret (createMessage result).

(** [ids] is the caller's array, passed by reference. *)
Definition deleteMessages (data : Data.ChannelCreatePayload)
    (ids : ArrayRef) (reason : option string) : M Promise :=
  when_truthy (Data.guild_id data) (fun g =>
    require g (MANAGE_MESSAGES Permissions) MISSING_MANAGE_MESSAGES) ;;;
  len <- array_length ids ;;
  when (len <? 2)%nat (throw (Error DELETE_MESSAGES_MIN)) ;;;
  when (100 <? len)%nat (logYellow bulk_delete_warning) ;;;
  messages <- array_splice ids 0 100 ;;
  RequestManager_post (CHANNEL_BULK_DELETE (Data.id data)) (BulkDelete messages reason).

Definition getInvites (data : Data.ChannelCreatePayload) : M Promise :=
  when_truthy (Data.guild_id data) (fun g =>
    require g (MANAGE_CHANNELS Permissions) MISSING_MANAGE_CHANNELS) ;;;
  RequestManager_get (CHANNEL_INVITES (Data.id data)) NoBody.

Definition createInvite (data : Data.ChannelCreatePayload) (options : Json) :
    M Promise :=
  when_truthy (Data.guild_id data) (fun g =>
    require g (CREATE_INSTANT_INVITE Permissions) MISSING_CREATE_INSTANT_INVITE) ;;;
  RequestManager_post (CHANNEL_INVITES (Data.id data)) (JsonBody options).

Definition getWebhooks (data : Data.ChannelCreatePayload) : M Promise :=
  when_truthy (Data.guild_id data) (fun g =>
    require g (MANAGE_WEBHOOKS Permissions) MISSING_MANAGE_WEBHOOKS) ;;;
  RequestManager_get (CHANNEL_WEBHOOKS (Data.id data)) NoBody.

Definition edit (data : Data.ChannelCreatePayload) (options : Json) : M Promise :=
  RequestManager_patch (GUILD_CHANNELS (Data.id data)) (JsonBody options).

(** [data.nsfw || false]. *)
Definition nsfw_or_false (v : option bool) : bool :=
  match v with Some true => true | _ => false end.

(** The object literal bound to [channel] in [createChannel]. *)
Definition channel_object (data : Data.ChannelCreatePayload) : Channel PermissionList :=
  {| raw := data;
     guildID := Data.guild_id data;
     lastMessageID := Data.last_message_id data;
     userLimit := Data.user_limit data;
     rateLimitPerUser := Data.rate_limit_per_user data;
     parentID := Data.parent_id data;
     lastPinTimestamp := Data.last_pin_timestamp data;
     permissions :=
       match Data.permission_overwrites data with
       | Some overwrites =>
           map (fun perm => {|
             overwrite_raw := perm;
             allow := calculatePermissions (Perm.allow perm);
             deny := calculatePermissions (Perm.deny perm) |}) overwrites
       | None => []
       end;
     nsfw := nsfw_or_false (Data.nsfw data);
     mention := "<#" +:+ Data.id data +:+ ">" |}.

Definition createChannel (data : Data.ChannelCreatePayload) :
    M (Channel PermissionList) :=
  let channel := channel_object data in
  updateChannelCache (Data.id data) channel ;;;
  ret channel.

(** ** The actions of a channel as one family *)

Inductive Action :=
| GetMessage (id : string)
| GetMessages (options : option Opt.GetMessages)
| GetPins
| SendMessage (content : string + Msg.MessageContent)
| DeleteMessages (ids : ArrayRef) (reason : option string)
| GetInvites
| CreateInvite (options : Json)
| GetWebhooks
| Edit (options : Json).

Definition perform (data : Data.ChannelCreatePayload) (a : Action) : M unit :=
  match a with
  | GetMessage id => discard (getMessage data id)
  | GetMessages options => discard (getMessages data options)
  | GetPins => discard (getPins data)
  | SendMessage content => discard (sendMessage data content)
  | DeleteMessages ids reason => discard (deleteMessages data ids reason)
  | GetInvites => discard (getInvites data)
  | CreateInvite options => discard (createInvite data options)
  | GetWebhooks => discard (getWebhooks data)
  | Edit options => discard (edit data options)
  end.

(** ** Observations on the trace *)

Definition transport_calls (tr : list Event) : list Request :=
  omap (fun ev => match ev with TransportCall r => Some r | _ => None end) tr.

Definition oracle_calls (tr : list Event) : list (string * list Z) :=
  omap (fun ev => match ev with OracleCall g ps _ => Some (g, ps) | _ => None end) tr.

Definition warnings (tr : list Event) : list string :=
  omap (fun ev => match ev with Warning m => Some m | _ => None end) tr.

(** The requests the methods send. *)
Definition bulk_delete_request (data : Data.ChannelCreatePayload)
    (messages : list string) (reason : option string) : Request :=
  {| method := POST;
     path := CHANNEL_BULK_DELETE (Data.id data);
     body := BulkDelete messages reason |}.

Definition messages_request (data : Data.ChannelCreatePayload)
    (options : option Opt.GetMessages) : Request :=
  {| method := GET; path := CHANNEL_MESSAGES (Data.id data); body := Query options |}.

Definition edit_request (data : Data.ChannelCreatePayload) (options : Json) : Request :=
  {| method := PATCH;
     path := GUILD_CHANNELS (Data.id data);
     body := JsonBody options |}.

(** ** Reading the specification of the overwrite resolver *)

(** A mask contains a flag when their [&] is non-zero. *)
Definition contains (mask flag : Z) : Prop := bitand mask flag <> 0.

(** [ow] is the overwrite of the list whose target id is [i] (the first
    one, should several carry the same id). *)
Definition first_with_id (overwrites : list Perm.Raw_Overwrite) (i : string)
    (ow : Perm.Raw_Overwrite) : Prop :=
  exists pre post,
    overwrites = pre ++ ow :: post /\ Perm.id ow = i /\
    Forall (fun o => Perm.id o <> i) pre.

Definition no_overwrite_for (overwrites : list Perm.Raw_Overwrite) (i : string) :
    Prop :=
  Forall (fun o => Perm.id o <> i) overwrites.

(** The lookup order: the actor's overwrite, otherwise the guild's. *)
Definition selects (overwrites : list Perm.Raw_Overwrite) (actorId : string)
    (guildId : option string) (sel : option Perm.Raw_Overwrite) : Prop :=
  match sel with
  | Some ow =>
      first_with_id overwrites actorId ow \/
      (no_overwrite_for overwrites actorId /\
       exists g, guildId = Some g /\ first_with_id overwrites g ow)
  | None =>
      no_overwrite_for overwrites actorId /\
      forall g, guildId = Some g -> no_overwrite_for overwrites g
  end.

(** A guild id is set when the test [if (channel.guildID)] succeeds: it is
    defined and not the empty string. *)
Definition guild_set (guildId : option string) (g : string) : Prop :=
  guildId = Some g /\ g <> "".

(** One required flag passes: not denied, and allowed or granted by the
    oracle asked for that single flag. *)
Definition flag_passes (ow : Perm.Raw_Overwrite) (guildId : option string)
    (flag : Z) : Prop :=
  ~ contains (Perm.deny ow) flag /\
  (contains (Perm.allow ow) flag \/
   exists g, guild_set guildId g /\ botHasPermission g [flag] = true).

(** The overwrites of a payload; an absent field holds none. *)
Definition overwrites_of (data : Data.ChannelCreatePayload) : list Perm.Raw_Overwrite :=
  default [] (Data.permission_overwrites data).

(** ** Reading the specification of the guarded actions *)

(** [options.limit], when both the options and the limit are present. *)
Definition limit_of (options : option Opt.GetMessages) : option Z :=
  match options with Some o => Opt.limit o | None => None end.

(** The permissions an action requires on a guild channel, each with the
    error thrown when it is missing. *)
Definition required_permissions (a : Action) : list (Z * Errors) :=
  match a with
  | GetMessage _ | GetMessages _ =>
      [(VIEW_CHANNEL Permissions, MISSING_VIEW_CHANNEL);
       (READ_MESSAGE_HISTORY Permissions, MISSING_READ_MESSAGE_HISTORY)]
  | SendMessage content =>
      (SEND_MESSAGES Permissions, MISSING_SEND_MESSAGES) ::
      (if truthy_opt truthy_bool (Msg.tts (normalize content))
       then [(SEND_TTS_MESSAGES Permissions, MISSING_SEND_TTS_MESSAGE)]
       else [])
  | DeleteMessages _ _ => [(MANAGE_MESSAGES Permissions, MISSING_MANAGE_MESSAGES)]
  | GetInvites => [(MANAGE_CHANNELS Permissions, MISSING_MANAGE_CHANNELS)]
  | CreateInvite _ =>
      [(CREATE_INSTANT_INVITE Permissions, MISSING_CREATE_INSTANT_INVITE)]
  | GetWebhooks => [(MANAGE_WEBHOOKS Permissions, MISSING_MANAGE_WEBHOOKS)]
  | GetPins | Edit _ => []
  end.

(** The call is made on a guild channel and the oracle refuses one of the
    permissions the action requires. *)
Definition lacks_permission (data : Data.ChannelCreatePayload) (a : Action) : Prop :=
  exists g,
    guild_set (Data.guild_id data) g /\
    Exists (fun r => botHasPermission g [r.1] = false) (required_permissions a).

(** [e] is the error of the first permission of the list that the oracle
    refuses for guild [g], every permission before it being granted. *)
Definition first_refused (g : string) (required : list (Z * Errors))
    (e : Errors) : Prop :=
  exists pre perm post,
    required = pre ++ (perm, e) :: post /\
    Forall (fun r => botHasPermission g [r.1] = true) pre /\
    botHasPermission g [perm] = false.

(** The arguments of the call break a structural rule: a limit above 100,
    a content longer than 2000, fewer than 2 ids. *)
Definition fails_validation (a : Action) (w : World PermissionList) : Prop :=
  match a with
  | GetMessages options => exists l, limit_of options = Some l /\ 100 < l
  | SendMessage content =>
      exists s, Msg.content (normalize content) = Some s /\
                (2000 < String.length s)%nat
  | DeleteMessages ids _ =>
      exists l, arrays w !! ids = Some l /\ (length l < 2)%nat
  | _ => False
  end.

(** The arguments of the call denote what their types say: the reference
    of [deleteMessages] denotes an array. *)
Definition well_formed (a : Action) (w : World PermissionList) : Prop :=
  match a with
  | DeleteMessages ids _ => is_Some (arrays w !! ids)
  | _ => True
  end.

(** ** Reading the other methods *)

(** The requests of the remaining methods. *)
Definition message_request (data : Data.ChannelCreatePayload) (id : string) : Request :=
  {| method := GET; path := CHANNEL_MESSAGE (Data.id data) id; body := NoBody |}.

Definition pins_request (data : Data.ChannelCreatePayload) : Request :=
  {| method := GET; path := CHANNEL_PINS (Data.id data); body := NoBody |}.

Definition send_request (data : Data.ChannelCreatePayload)
    (content : string + Msg.MessageContent) : Request :=
  {| method := POST;
     path := CHANNEL_MESSAGES (Data.id data);
     body := MessageBody (normalize content) |}.

Definition invites_request (data : Data.ChannelCreatePayload) : Request :=
  {| method := GET; path := CHANNEL_INVITES (Data.id data); body := NoBody |}.

Definition create_invite_request (data : Data.ChannelCreatePayload)
    (options : Json) : Request :=
  {| method := POST;
     path := CHANNEL_INVITES (Data.id data);
     body := JsonBody options |}.

Definition webhooks_request (data : Data.ChannelCreatePayload) : Request :=
  {| method := GET; path := CHANNEL_WEBHOOKS (Data.id data); body := NoBody |}.

(** How an async method ends once its request is sent: a single message is
    built from the payload, a list of messages from an array payload; a
    rejection of the transport becomes the method's own. *)
Definition one_message (p : Promise) : Outcome Message :=
  match p with
  | Resolved payload => Returned (createMessage payload)
  | Rejected reason => Thrown (TransportFailure reason)
  end.

Definition many_messages (p : Promise) : Outcome (list Message) :=
  match p with
  | Resolved (JArray items) => Returned (map createMessage items)
  | Resolved _ => Thrown TypeError
  | Rejected reason => Thrown (TransportFailure reason)
  end.

(** The contract of a method guarded by one permission: on a guild channel
    where the oracle refuses [perm] it throws [err] and sends nothing; in
    every other case it sends [request], once, and returns the promise of
    the transport as it is, settled either way. *)
Definition guarded_by (data : Data.ChannelCreatePayload) (perm : Z) (err : Errors)
    (request : Request) (method : Computation PermissionList Promise)
    (w : World PermissionList) : Prop :=
  exists o w',
    method w = (o, w') /\
    cache w' = cache w /\ arrays w' = arrays w /\
    warnings (trace w') = warnings (trace w) /\
    ((exists g, guild_set (Data.guild_id data) g /\
                botHasPermission g [perm] = false) ->
       o = Thrown (Error err) /\
       transport_calls (trace w') = transport_calls (trace w)) /\
    ((forall g, guild_set (Data.guild_id data) g ->
                botHasPermission g [perm] = true) ->
       o = Returned (RequestManager request) /\
       transport_calls (trace w') = transport_calls (trace w) ++ [request]).

End Model.

(** ** A concrete client, for closed examples *)

(** The values of the flags on the platform. *)
Definition discord_flags : PermissionFlags :=
  {| CREATE_INSTANT_INVITE := 1;
     MANAGE_CHANNELS := 16;
     VIEW_CHANNEL := 1024;
     SEND_MESSAGES := 2048;
     SEND_TTS_MESSAGES := 4096;
     MANAGE_MESSAGES := 8192;
     READ_MESSAGE_HISTORY := 65536;
     MANAGE_WEBHOOKS := 536870912 |}.

(** A client whose messages and permission lists are the raw values, and
    whose transport answers every request with an empty array. *)
Definition test_client (oracle : string -> list Z -> bool) : Collaborators Json Z :=
  {| createMessage := fun result => result;
     calculatePermissions := fun bits => bits;
     Permissions := discord_flags;
     botHasPermission := oracle;
     RequestManager := fun _ => Resolved (JArray []) |}.

Definition grant_all : string -> list Z -> bool := fun _ _ => true.

Definition grant_none : string -> list Z -> bool := fun _ _ => false.

(** The guild channel of the specification's scenario: id 10 in guild 1,
    whose default role may view the channel. *)
Definition guild_payload : Data.ChannelCreatePayload :=
  {| Data.id := "10";
     Data.guild_id := Some "1";
     Data.last_message_id := None;
     Data.user_limit := None;
     Data.rate_limit_per_user := None;
     Data.parent_id := None;
     Data.last_pin_timestamp := None;
     Data.permission_overwrites :=
       Some [ {| Perm.id := "1"; Perm.allow := 1024; Perm.deny := 0 |} ];
     Data.nsfw := None |}.

(** A direct-message channel, with an overwrite for user 2. *)
Definition dm_payload : Data.ChannelCreatePayload :=
  {| Data.id := "20";
     Data.guild_id := None;
     Data.last_message_id := None;
     Data.user_limit := None;
     Data.rate_limit_per_user := None;
     Data.parent_id := None;
     Data.last_pin_timestamp := None;
     Data.permission_overwrites :=
       Some [ {| Perm.id := "2"; Perm.allow := 1024; Perm.deny := 0 |} ];
     Data.nsfw := None |}.

Definition empty_world : World Z :=
  {| cache := ∅; arrays := ∅; trace := [] |}.

(** A world whose heap holds the caller's array [l] at reference 0. *)
Definition world_with_ids (l : list string) : World Z :=
  {| cache := ∅; arrays := {[ 0%nat := l ]}; trace := [] |}.

(** The ids ["1"], ["2"], ..., [n]. *)
Definition message_ids (n : nat) : list string := map pretty (seq 1 n).

(** A content of [n] characters. *)
Fixpoint long_content (n : nat) : string :=
  match n with
  | O => ""
  | S k => "a" +:+ long_content k
  end.

(** [createChannel(data).hasPermission(id, permissions)]. *)
Definition create_then_hasPermission {Message PermissionList}
    {C : Collaborators Message PermissionList}
    (data : Data.ChannelCreatePayload) (id : string) (required : list Z) :
    Computation PermissionList bool :=
  channel <- createChannel data ;;
  hasPermission data channel id required.

(** A client whose transport answers every request with two payloads. *)
Definition array_client (oracle : string -> list Z -> bool) : Collaborators Json Z :=
  {| createMessage := fun result => JObject [("message", result)];
     calculatePermissions := fun bits => bits;
     Permissions := discord_flags;
     botHasPermission := oracle;
     RequestManager := fun _ => Resolved (JArray [JString "a"; JString "b"]) |}.

(** An oracle that grants VIEW_CHANNEL and SEND_MESSAGES only. *)
Definition grant_view_and_send : string -> list Z -> bool :=
  fun _ required =>
    bool_decide (required = [1024]) || bool_decide (required = [2048]).

(** The guild channel with an overwrite for the guild that denies bit 32
    and allows nothing. *)
Definition wide_payload : Data.ChannelCreatePayload :=
  {| Data.id := "30";
     Data.guild_id := Some "1";
     Data.last_message_id := None;
     Data.user_limit := None;
     Data.rate_limit_per_user := None;
     Data.parent_id := None;
     Data.last_pin_timestamp := None;
     Data.permission_overwrites :=
       Some [ {| Perm.id := "1"; Perm.allow := 0; Perm.deny := 4294967296 |} ];
     Data.nsfw := Some true |}.

Section Theory.

Context {Message PermissionList : Type} {C : Collaborators Message PermissionList}.

Local Abbreviation M := (Computation PermissionList).

(** ** Bit masks *)

Lemma ToInt32_small n : 0 <= n < 2 ^ 31 -> ToInt32 n = n.
Proof.
  intros Hn. unfold ToInt32.
  rewrite Z.mod_small by lia.
  destruct (Z.leb_spec (2 ^ 31) n); lia.
Qed.

Lemma ToInt32_testbit n k : 0 <= k < 32 -> Z.testbit (ToInt32 n) k = Z.testbit n k.
Proof.
  intros Hk. unfold ToInt32.
  assert (Hlow : Z.testbit (n mod 2 ^ 32) k = Z.testbit n k)
    by (apply Z.mod_pow2_bits_low; lia).
  destruct (Z.leb_spec (2 ^ 31) (n mod 2 ^ 32)); [| exact Hlow].
  rewrite <- Hlow.
  rewrite <- (Z.mod_pow2_bits_low (n mod 2 ^ 32 - 2 ^ 32) 32 k) by lia.
  rewrite <- (Z.mod_pow2_bits_low (n mod 2 ^ 32) 32 k) by lia.
  f_equal.
  replace (n mod 2 ^ 32 - 2 ^ 32) with (n mod 2 ^ 32 + (-1) * 2 ^ 32) by lia.
  apply Z.mod_add. lia.
Qed.

(** On masks and flags below [2^31] the operator is plain bitwise and. *)
Lemma bitand_small a b :
  0 <= a < 2 ^ 31 -> 0 <= b < 2 ^ 31 -> bitand a b = Z.land a b.
Proof. intros Ha Hb. unfold bitand. by rewrite !ToInt32_small. Qed.

(** For a single-bit flag [2^k], [k < 31], the mask contains the flag
    exactly when bit [k] of the mask is set. *)
Lemma contains_bit mask k :
  0 <= k < 31 -> contains mask (2 ^ k) <-> Z.testbit mask k = true.
Proof.
  intros Hk. unfold contains, bitand.
  assert (Hp : 0 <= 2 ^ k < 2 ^ 31).
  { split; [apply Z.pow_nonneg; lia | apply Z.pow_lt_mono_r; lia]. }
  rewrite (ToInt32_small (2 ^ k)) by exact Hp.
  rewrite <- (ToInt32_testbit mask k) by lia.
  set (m := ToInt32 mask).
  split.
  - intros Hne. destruct (Z.testbit m k) eqn:Hb; [done |].
    exfalso. apply Hne. apply Z.bits_inj'. intros i Hi.
    rewrite Z.land_spec, Z.bits_0, Z.pow2_bits_eqb by lia.
    destruct (Z.eqb_spec k i) as [-> | _]; [by rewrite Hb | by rewrite andb_false_r].
  - intros Hb Hz.
    assert (Hk' : Z.testbit (Z.land m (2 ^ k)) k = true).
    { rewrite Z.land_spec, Hb, Z.pow2_bits_eqb, Z.eqb_refl by lia. done. }
    rewrite Hz, Z.bits_0 in Hk'. done.
Qed.

(** ** The monad *)

Lemma bind_returned {A B} (c : M A) (k : A -> M B)
    (w : World PermissionList) a w1 :
  c w = (Returned a, w1) -> bind c k w = k a w1.
Proof. intros H. unfold bind. by rewrite H. Qed.

Lemma bind_thrown {A B} (c : M A) (k : A -> M B)
    (w : World PermissionList) x w1 :
  c w = (Thrown x, w1) -> bind c k w = (Thrown x, w1).
Proof. intros H. unfold bind. by rewrite H. Qed.

Lemma truthy_number_spec n : truthy_number n = true <-> n <> 0.
Proof. unfold truthy_number. destruct (Z.eqb_spec n 0); naive_solver. Qed.

Lemma truthy_string_spec s : truthy_string s = true <-> s <> "".
Proof. destruct s; naive_solver. Qed.

Lemma transport_calls_log_oracle tr g ps b :
  transport_calls (tr ++ [OracleCall g ps b]) = transport_calls tr.
Proof. unfold transport_calls. rewrite omap_app. simpl. apply app_nil_r. Qed.

Lemma transport_calls_log_warning tr m :
  transport_calls (tr ++ [Warning m]) = transport_calls tr.
Proof. unfold transport_calls. rewrite omap_app. simpl. apply app_nil_r. Qed.

Lemma transport_calls_log_request tr r :
  transport_calls (tr ++ [TransportCall r]) = transport_calls tr ++ [r].
Proof. unfold transport_calls. by rewrite omap_app. Qed.

(** ** Overwrite resolution *)

Lemma find_first_with_id overwrites i ow :
  find (fun perm => bool_decide (Perm.id perm = i)) overwrites = Some ow <->
  first_with_id overwrites i ow.
Proof.
  split.
  - induction overwrites as [| o rest IH]; simpl; [done |].
    case_bool_decide as Ho.
    + intros [= ->]. exists [], rest. by repeat split.
    + intros Hf. destruct (IH Hf) as (pre & post & -> & Hid & Hpre).
      exists (o :: pre), post. repeat split; [done | by constructor].
  - intros (pre & post & -> & Hid & Hpre).
    induction Hpre as [| o pre Ho _ IH]; simpl.
    + by rewrite bool_decide_eq_true_2.
    + by rewrite bool_decide_eq_false_2.
Qed.

Lemma find_none_no_overwrite overwrites i :
  find (fun perm => bool_decide (Perm.id perm = i)) overwrites = None <->
  no_overwrite_for overwrites i.
Proof.
  unfold no_overwrite_for. induction overwrites as [| o rest IH]; simpl.
  - split; [by constructor | done].
  - case_bool_decide as Ho.
    + split; [done |]. intros H. by inversion H.
    + rewrite IH. split; [by constructor | intros H; by inversion H].
Qed.

Lemma first_with_id_unique overwrites i ow1 ow2 :
  first_with_id overwrites i ow1 -> first_with_id overwrites i ow2 -> ow1 = ow2.
Proof.
  intros H1 H2. apply find_first_with_id in H1, H2. congruence.
Qed.

Lemma first_with_id_not_none overwrites i ow :
  first_with_id overwrites i ow -> no_overwrite_for overwrites i -> False.
Proof.
  intros H1 H2. apply find_first_with_id in H1.
  apply find_none_no_overwrite in H2. congruence.
Qed.

(** The lookup order determines the selected overwrite. *)
Lemma selects_unique overwrites actorId guildId sel1 sel2 :
  selects overwrites actorId guildId sel1 ->
  selects overwrites actorId guildId sel2 -> sel1 = sel2.
Proof.
  destruct sel1 as [o1 |], sel2 as [o2 |]; simpl.
  - intros [H1 | [N1 (g1 & E1 & H1)]] [H2 | [N2 (g2 & E2 & H2)]].
    + f_equal. eauto using first_with_id_unique.
    + destruct (first_with_id_not_none _ _ _ H1 N2).
    + destruct (first_with_id_not_none _ _ _ H2 N1).
    + f_equal. rewrite E1 in E2. injection E2 as <-.
      eauto using first_with_id_unique.
  - intros [H1 | [N1 (g1 & E1 & H1)]] [N2 G2].
    + destruct (first_with_id_not_none _ _ _ H1 N2).
    + destruct (first_with_id_not_none _ _ _ H1 (G2 _ E1)).
  - intros [N1 G1] [H2 | [N2 (g2 & E2 & H2)]].
    + destruct (first_with_id_not_none _ _ _ H2 N1).
    + destruct (first_with_id_not_none _ _ _ H2 (G1 _ E2)).
  - done.
Qed.


Lemma find_guild_overwrite overwrites guildId :
  find (fun perm => bool_decide (Some (Perm.id perm) = guildId)) overwrites =
  match guildId with
  | Some g => find (fun perm => bool_decide (Perm.id perm = g)) overwrites
  | None => None
  end.
Proof.
  destruct guildId as [g |].
  - induction overwrites as [| o rest IH]; simpl; [done |].
    rewrite IH. repeat case_bool_decide; naive_solver.
  - induction overwrites as [| o rest IH]; simpl; [done | exact IH].
Qed.

Lemma lookup_selects data (channel : Channel PermissionList) id :
  selects (overwrites_of data) id (guildID channel)
    (or_else
       (find_overwrite data (fun perm => bool_decide (Perm.id perm = id)))
       (find_overwrite data
          (fun perm => bool_decide (Some (Perm.id perm) = guildID channel)))).
Proof.
  unfold find_overwrite, overwrites_of.
  destruct (Data.permission_overwrites data) as [ows |]; simpl.
  - destruct (find _ ows) as [ow |] eqn:Hactor; simpl.
    + left. by apply find_first_with_id.
    + apply find_none_no_overwrite in Hactor.
      rewrite find_guild_overwrite.
      destruct (guildID channel) as [g |]; simpl.
      * destruct (find _ ows) as [ow |] eqn:Hguild; simpl.
        -- right. split; [done |]. exists g. split; [done |].
           by apply find_first_with_id.
        -- split; [done |]. intros g' [= <-].
           by apply find_none_no_overwrite.
      * split; [done |]. by intros g' [=].
  - split; [by constructor |]. intros. by constructor.
Qed.

Lemma check_flag_spec ow
    (channel : Channel PermissionList) perm (w : World PermissionList) :
  exists b w',
    check_flag ow channel perm w = (Returned b, w') /\
    (b = true <-> flag_passes ow (guildID channel) perm) /\
    cache w' = cache w /\ arrays w' = arrays w.
Proof.
  unfold check_flag, flag_passes, contains, guild_set.
  destruct (truthy_number (bitand (Perm.deny ow) perm)) eqn:Hdeny.
  { apply truthy_number_spec in Hdeny.
    exists false, w. split; [done |]. split; [| done].
    split; [done | tauto]. }
  assert (Hd : bitand (Perm.deny ow) perm = 0).
  { destruct (decide (bitand (Perm.deny ow) perm = 0)) as [| Hne]; [done |].
    apply truthy_number_spec in Hne. congruence. }
  destruct (truthy_number (bitand (Perm.allow ow) perm)) eqn:Hallow.
  { apply truthy_number_spec in Hallow.
    exists true, w. split; [done |]. split; [| done].
    split; [intros _; split; [lia | by left] | done]. }
  assert (Ha : bitand (Perm.allow ow) perm = 0).
  { destruct (decide (bitand (Perm.allow ow) perm = 0)) as [| Hne]; [done |].
    apply truthy_number_spec in Hne. congruence. }
  destruct (guildID channel) as [g |].
  - destruct (truthy_string g) eqn:Hg.
    + apply truthy_string_spec in Hg.
      eexists _, _. split; [reflexivity |]. split; [| done].
      split.
      * intros Hb. split; [lia |]. right. by exists g.
      * intros (_ & [Hc | (g' & [[= <-] _] & Hb)]); [lia | done].
    + exists false, w. split; [done |]. split; [| done].
      split; [done |].
      intros (_ & [Hc | (g' & [[= <-] Hne] & _)]); [lia |].
      apply truthy_string_spec in Hne. congruence.
  - exists false, w. split; [done |]. split; [| done].
    split; [done |].
    intros (_ & [Hc | (g' & [[=] _] & _)]). lia.
Qed.

Lemma every_check_flag ow
    (channel : Channel PermissionList) required (w : World PermissionList) :
  exists b w',
    every (check_flag ow channel) required w = (Returned b, w') /\
    (b = true <-> Forall (flag_passes ow (guildID channel)) required) /\
    cache w' = cache w /\ arrays w' = arrays w.
Proof.
  revert w. induction required as [| p rest IH]; intros w; simpl.
  - exists true, w. split; [done |]. split; [| done].
    split; [by constructor | done].
  - unfold bind.
    destruct (check_flag_spec ow channel p w) as (b & w1 & -> & Hb & Hc & Ha).
    destruct b.
    + destruct (IH w1) as (b' & w2 & -> & Hb' & Hc' & Ha').
      exists b', w2. split; [done |]. split; [| split; congruence].
      split.
      * intros E. constructor; [by apply Hb | by apply Hb'].
      * intros HF. inversion HF; subst. by apply Hb'.
    + exists false, w1. split; [done |]. split; [| done].
      split; [done |].
      intros HF. inversion HF; subst. by apply Hb.
Qed.

(** Evaluation stops at the first flag that fails: what follows it is
    never looked at. *)
Lemma every_check_flag_stops ow
    (channel : Channel PermissionList) pre p post (w : World PermissionList) :
  Forall (flag_passes ow (guildID channel)) pre ->
  ~ flag_passes ow (guildID channel) p ->
  every (check_flag ow channel) (pre ++ p :: post) w =
  every (check_flag ow channel) (pre ++ [p]) w.
Proof.
  intros Hpre Hp. revert w.
  induction Hpre as [| q pre Hq _ IH]; intros w; simpl; unfold bind.
  - destruct (check_flag_spec ow channel p w) as (b & w1 & -> & Hb & _).
    destruct b; [| done]. destruct Hp. by apply Hb.
  - destruct (check_flag_spec ow channel q w) as (b & w1 & -> & Hb & _).
    destruct b; [apply IH | done].
Qed.

(** C1. [hasPermission] selects the overwrite of the actor id, otherwise
    that of the guild id.  With none selected it returns false whatever the
    oracle answers, and leaves the world as it was.  Otherwise it returns
    true exactly when every required flag is not contained in the deny mask
    of the selected overwrite and is contained in its allow mask or, a
    guild id being set, granted by the oracle asked for that flag alone.
    The conjunction stops at the first failing flag: the flags after it
    play no part in the run. *)
Theorem hasPermission_resolves data
    (channel : Channel PermissionList) id required (w : World PermissionList) :
  exists sel,
    selects (overwrites_of data) id (guildID channel) sel /\
    match sel with
    | None => hasPermission data channel id required w = (Returned false, w)
    | Some ow =>
        (exists b w',
           hasPermission data channel id required w = (Returned b, w') /\
           (b = true <-> Forall (flag_passes ow (guildID channel)) required)) /\
        (forall pre p post,
           required = pre ++ p :: post ->
           Forall (flag_passes ow (guildID channel)) pre ->
           ~ flag_passes ow (guildID channel) p ->
           hasPermission data channel id required w =
           hasPermission data channel id (pre ++ [p]) w /\
           fst (hasPermission data channel id required w) = Returned false)
    end.
Proof.
  eexists. split; [apply lookup_selects |].
  unfold hasPermission.
  destruct (or_else _ _) as [ow |]; [| done].
  split.
  - destruct (every_check_flag ow channel required w) as (b & w' & E & Hb & _).
    eauto.
  - intros pre p post -> Hpre Hp.
    split; [by apply every_check_flag_stops |].
    destruct (every_check_flag ow channel (pre ++ p :: post) w)
      as (b & w' & -> & Hb & _).
    simpl. destruct b; [| done].
    exfalso. apply Hp.
    assert (HF : Forall (flag_passes ow (guildID channel)) (pre ++ p :: post))
      by (by apply Hb).
    apply Forall_app in HF as [_ HF]. by inversion HF.
Qed.


(** Without a guild id the callback never reaches the oracle. *)
Lemma check_flag_without_guild ow
    (channel : Channel PermissionList) perm (w : World PermissionList) :
  guildID channel = None ->
  exists b,
    check_flag ow channel perm w = (Returned b, w) /\
    (b = true <->
     ~ contains (Perm.deny ow) perm /\ contains (Perm.allow ow) perm).
Proof.
  intros Hg. unfold check_flag, contains. rewrite Hg.
  destruct (truthy_number (bitand (Perm.deny ow) perm)) eqn:Hdeny.
  { apply truthy_number_spec in Hdeny. exists false. split; [done |].
    split; [done | tauto]. }
  assert (Hd : bitand (Perm.deny ow) perm = 0).
  { destruct (decide (bitand (Perm.deny ow) perm = 0)) as [| Hne]; [done |].
    apply truthy_number_spec in Hne. congruence. }
  destruct (truthy_number (bitand (Perm.allow ow) perm)) eqn:Hallow.
  - apply truthy_number_spec in Hallow. exists true. split; [done |].
    split; [intros _; split; [lia | done] | done].
  - exists false. split; [done |]. split; [done |].
    intros [_ Ha]. apply truthy_number_spec in Ha. congruence.
Qed.

Lemma every_check_flag_without_guild ow
    (channel : Channel PermissionList) required (w : World PermissionList) :
  guildID channel = None ->
  exists b,
    every (check_flag ow channel) required w = (Returned b, w) /\
    (b = true <->
     Forall (fun perm => ~ contains (Perm.deny ow) perm /\
                         contains (Perm.allow ow) perm) required).
Proof.
  intros Hg. induction required as [| p rest IH]; simpl.
  - exists true. split; [done |]. split; [by constructor | done].
  - unfold bind.
    destruct (check_flag_without_guild ow channel p w Hg) as (b & -> & Hb).
    destruct b.
    + destruct IH as (b' & -> & Hb'). exists b'. split; [done |].
      split.
      * intros E. constructor; [by apply Hb | by apply Hb'].
      * intros HF. inversion HF; subst. by apply Hb'.
    + exists false. split; [done |]. split; [done |].
      intros HF. inversion HF; subst. by apply Hb.
Qed.

(** C2, as amended.  On a channel without a guild id, [hasPermission]
    never consults the oracle and leaves the world as it was; it returns
    true exactly when an overwrite for the actor id exists and every
    required flag is contained in its allow mask and not in its deny mask,
    and false in every other case. *)
Theorem hasPermission_without_guild data
    (channel : Channel PermissionList) id required (w : World PermissionList) :
  guildID channel = None ->
  exists b,
    hasPermission data channel id required w = (Returned b, w) /\
    (b = true <->
     exists ow,
       first_with_id (overwrites_of data) id ow /\
       Forall (fun perm => ~ contains (Perm.deny ow) perm /\
                           contains (Perm.allow ow) perm) required).
Proof.
  intros Hg.
  pose proof (lookup_selects data channel id) as Hsel.
  unfold hasPermission.
  destruct (or_else _ _) as [ow |]; simpl in Hsel.
  - destruct (every_check_flag_without_guild ow channel required w Hg)
      as (b & -> & Hb).
    exists b. split; [done |].
    destruct Hsel as [Hfirst | (_ & g & Hsome & _)]; [| congruence].
    split.
    + intros E. exists ow. split; [done | by apply Hb].
    + intros (ow' & Hfirst' & HF).
      assert (ow = ow') as -> by eauto using first_with_id_unique.
      by apply Hb.
  - exists false. split; [done |]. split; [done |].
    intros (ow & Hfirst & _). destruct Hsel as [Hnone _].
    destruct (first_with_id_not_none _ _ _ Hfirst Hnone).
Qed.

(** ** Guarded actions *)

Lemma require_granted g perm err (w : World PermissionList) :
  botHasPermission g [perm] = true ->
  require g perm err w = (Returned tt, log (OracleCall g [perm] true) w).
Proof. intros H. unfold require, bind, call_botHasPermission. by rewrite H. Qed.

Lemma require_denied g perm err (w : World PermissionList) :
  botHasPermission g [perm] = false ->
  require g perm err w = (Thrown (Error err), log (OracleCall g [perm] false) w).
Proof. intros H. unfold require, bind, call_botHasPermission. by rewrite H. Qed.

(** The permission guard of [deleteMessages] when it lets the call through: the world
    it leaves has the same cache, arrays, transport calls and warnings. *)
Lemma manage_messages_guard data (w : World PermissionList) :
  (forall g, Data.guild_id data = Some g ->
             botHasPermission g [MANAGE_MESSAGES Permissions] = true) ->
  exists w1,
    when_truthy (Data.guild_id data)
      (fun g => require g (MANAGE_MESSAGES Permissions) MISSING_MANAGE_MESSAGES) w
    = (Returned tt, w1) /\
    cache w1 = cache w /\ arrays w1 = arrays w /\
    transport_calls (trace w1) = transport_calls (trace w) /\
    warnings (trace w1) = warnings (trace w).
Proof.
  intros Hgranted. unfold when_truthy.
  destruct (Data.guild_id data) as [g |]; [| by exists w].
  destruct (truthy_string g); [| by exists w].
  rewrite require_granted by auto.
  eexists. split; [done |]. simpl.
  unfold transport_calls, warnings. rewrite !omap_app. simpl.
  by rewrite !app_nil_r.
Qed.

(** What [deleteMessages] does once its permission guard is passed, on a caller's
    array [l] of at least two ids. *)
Lemma deleteMessages_dispatch data ids reason (w : World PermissionList) l :
  arrays w !! ids = Some l ->
  (forall g, Data.guild_id data = Some g ->
             botHasPermission g [MANAGE_MESSAGES Permissions] = true) ->
  (2 <= length l)%nat ->
  exists w',
    deleteMessages data ids reason w =
      (Returned (RequestManager (bulk_delete_request data (take 100 l) reason)), w') /\
    transport_calls (trace w') =
      transport_calls (trace w) ++ [bulk_delete_request data (take 100 l) reason] /\
    warnings (trace w') =
      warnings (trace w) ++
      (if (100 <? length l)%nat then [bulk_delete_warning] else []) /\
    cache w' = cache w /\
    arrays w' = <[ids := drop 100 l]> (arrays w).
Proof.
  intros Hl Hgranted Hlen.
  destruct (manage_messages_guard data w Hgranted) as (w1 & Hguard & Hc & Ha & Ht & Hw).
  unfold deleteMessages, bind. rewrite Hguard.
  unfold array_length. rewrite Ha, Hl.
  destruct (Nat.ltb_spec (length l) 2) as [| _]; [lia |]. simpl.
  unfold array_splice, RequestManager_post, send, bulk_delete_request, splice.
  destruct (100 <? length l)%nat; simpl; rewrite Ha, Hl; simpl;
    rewrite drop_0; eexists; (split; [reflexivity |]); simpl;
    unfold transport_calls, warnings in *; rewrite ?omap_app; simpl;
    rewrite ?app_nil_r, ?Ht, ?Hw, ?Hc; done.
Qed.

(** C4.  With MANAGE_MESSAGES granted, or no guild id, [deleteMessages]
    on fewer than 2 ids throws the below-minimum error and sends nothing;
    on more than 100 ids it logs the warning, throws nothing and sends
    exactly one request, carrying the first 100 ids in order; on 2 to 100
    ids it sends exactly one request carrying all of them, and logs no
    warning. *)
Theorem deleteMessages_bounds data ids reason (w : World PermissionList) l :
  arrays w !! ids = Some l ->
  (forall g, Data.guild_id data = Some g ->
             botHasPermission g [MANAGE_MESSAGES Permissions] = true) ->
  exists o w',
    deleteMessages data ids reason w = (o, w') /\
    ((length l < 2)%nat ->
       o = Thrown (Error DELETE_MESSAGES_MIN) /\
       transport_calls (trace w') = transport_calls (trace w)) /\
    ((100 < length l)%nat ->
       o = Returned (RequestManager (bulk_delete_request data (take 100 l) reason)) /\
       transport_calls (trace w') =
         transport_calls (trace w) ++ [bulk_delete_request data (take 100 l) reason] /\
       length (take 100 l) = 100%nat /\
       warnings (trace w') = warnings (trace w) ++ [bulk_delete_warning]) /\
    ((2 <= length l <= 100)%nat ->
       o = Returned (RequestManager (bulk_delete_request data l reason)) /\
       transport_calls (trace w') =
         transport_calls (trace w) ++ [bulk_delete_request data l reason] /\
       warnings (trace w') = warnings (trace w)).
Proof.
  intros Hl Hgranted.
  destruct (Nat.ltb_spec (length l) 2) as [Hshort | Hlen].
  - destruct (manage_messages_guard data w Hgranted)
      as (w1 & Hguard & Hc & Ha & Ht & Hw).
    exists (Thrown (Error DELETE_MESSAGES_MIN)), w1.
    split; [| split; [done | split; intros; lia]].
    unfold deleteMessages, bind. rewrite Hguard.
    unfold array_length. rewrite Ha, Hl.
    by destruct (Nat.ltb_spec (length l) 2) as [_ |]; [| lia].
  - destruct (deleteMessages_dispatch data ids reason w l Hl Hgranted Hlen)
      as (w' & E & Ht & Hw & _).
    eexists _, w'. split; [exact E |].
    split; [intros; lia |]. split.
    + intros Hmany. split; [done |]. split; [done |].
      split; [rewrite length_take; lia |].
      rewrite Hw. by destruct (Nat.ltb_spec 100 (length l)); [| lia].
    + intros [_ Hfew]. rewrite take_ge in * by lia.
      split; [done |]. split; [done |].
      rewrite Hw. destruct (Nat.ltb_spec 100 (length l)); [lia |].
      apply app_nil_r.
Qed.

(** C10.  A call of [deleteMessages] that reaches dispatch removes the
    first [min 100 (length l)] elements from the caller's own array: after
    the call the array holds what came after its first 100 elements, and
    is empty when at most 100 ids were passed, truncation or not.  The
    removed elements are the ones the request carries; no other array is
    touched. *)
Theorem deleteMessages_mutates_ids data ids reason
    (w : World PermissionList) l :
  arrays w !! ids = Some l ->
  (forall g, Data.guild_id data = Some g ->
             botHasPermission g [MANAGE_MESSAGES Permissions] = true) ->
  (2 <= length l)%nat ->
  exists promise w',
    deleteMessages data ids reason w = (Returned promise, w') /\
    arrays w' !! ids = Some (drop (Nat.min 100 (length l)) l) /\
    arrays w' !! ids = Some (drop 100 l) /\
    ((length l <= 100)%nat -> arrays w' !! ids = Some []) /\
    transport_calls (trace w') =
      transport_calls (trace w) ++
      [bulk_delete_request data (take (Nat.min 100 (length l)) l) reason] /\
    (forall other, other <> ids -> arrays w' !! other = arrays w !! other).
Proof.
  intros Hl Hgranted Hlen.
  destruct (deleteMessages_dispatch data ids reason w l Hl Hgranted Hlen)
    as (w' & E & Ht & _ & _ & Ha).
  eexists _, w'. split; [exact E |]. rewrite Ha, lookup_insert_eq.
  assert (Hdrop : drop (Nat.min 100 (length l)) l = drop 100 l).
  { destruct (Nat.le_ge_cases 100 (length l)).
    - by rewrite Nat.min_l.
    - rewrite Nat.min_r, !drop_ge by lia. done. }
  assert (Htake : take (Nat.min 100 (length l)) l = take 100 l).
  { destruct (Nat.le_ge_cases 100 (length l)).
    - by rewrite Nat.min_l.
    - rewrite Nat.min_r, !take_ge by lia. done. }
  rewrite Hdrop, Htake.
  split; [done |]. split; [done |].
  split; [intros; by rewrite drop_ge |].
  split; [done |].
  intros other Hne. by rewrite lookup_insert_ne.
Qed.

(** The permission guard of [sendMessage] when it lets the call through. *)
Lemma send_messages_guard data content (w : World PermissionList) :
  (forall g, Data.guild_id data = Some g ->
     botHasPermission g [SEND_MESSAGES Permissions] = true /\
     (Msg.tts content = Some true ->
      botHasPermission g [SEND_TTS_MESSAGES Permissions] = true)) ->
  exists w1,
    when_truthy (Data.guild_id data) (fun g =>
      require g (SEND_MESSAGES Permissions) MISSING_SEND_MESSAGES ;;;
      if truthy_opt truthy_bool (Msg.tts content)
      then require g (SEND_TTS_MESSAGES Permissions) MISSING_SEND_TTS_MESSAGE
      else ret tt) w
    = (Returned tt, w1) /\
    cache w1 = cache w /\ arrays w1 = arrays w /\
    transport_calls (trace w1) = transport_calls (trace w).
Proof.
  intros Hgranted. unfold when_truthy.
  destruct (Data.guild_id data) as [g |]; [| by exists w].
  destruct (truthy_string g); [| by exists w].
  destruct (Hgranted g eq_refl) as [Hsend Htts].
  unfold bind. rewrite require_granted by done.
  destruct (Msg.tts content) as [[|] |]; simpl.
  - rewrite require_granted by auto.
    eexists. split; [done |]. simpl.
    by rewrite !transport_calls_log_oracle.
  - eexists. split; [done |]. simpl. by rewrite transport_calls_log_oracle.
  - eexists. split; [done |]. simpl. by rewrite transport_calls_log_oracle.
Qed.

(** C5.  A string argument of [sendMessage] is first turned into the
    object holding it as [content].  When the content of the normalized
    argument is present and longer than 2000 characters, and the permission
    assertions pass (or there is no guild id), the call throws the
    message-too-long error and sends nothing. *)
Theorem sendMessage_too_long data content (w : World PermissionList) s :
  Msg.content (normalize content) = Some s ->
  (2000 < String.length s)%nat ->
  (forall g, Data.guild_id data = Some g ->
     botHasPermission g [SEND_MESSAGES Permissions] = true /\
     (Msg.tts (normalize content) = Some true ->
      botHasPermission g [SEND_TTS_MESSAGES Permissions] = true)) ->
  (forall str : string,
     normalize (inl str) = {| Msg.content := Some str; Msg.tts := None |} /\
     sendMessage data (inl str) = sendMessage data (inr (normalize (inl str)))) /\
  exists w',
    sendMessage data content w = (Thrown (Error MESSAGE_MAX_LENGTH), w') /\
    transport_calls (trace w') = transport_calls (trace w).
Proof.
  intros Hs Hlong Hgranted. split; [done |].
  destruct (send_messages_guard data (normalize content) w Hgranted)
    as (w1 & Hguard & _ & _ & Ht).
  exists w1. split; [| done].
  unfold sendMessage. cbv zeta. rewrite (bind_returned _ _ _ _ _ Hguard).
  unfold bind, too_long. rewrite Hs.
  destruct s as [| c s']; [simpl in Hlong; lia |].
  cbn [truthy_string andb].
  by destruct (Nat.ltb_spec 2000 (String.length (String c s'))); [| lia].
Qed.

(** The permission guard shared by [getMessage] and [getMessages] when it lets the
    call through. *)
Lemma read_messages_guard data (w : World PermissionList) :
  (forall g, Data.guild_id data = Some g ->
     botHasPermission g [VIEW_CHANNEL Permissions] = true /\
     botHasPermission g [READ_MESSAGE_HISTORY Permissions] = true) ->
  exists w1,
    when_truthy (Data.guild_id data) (fun g =>
      require g (VIEW_CHANNEL Permissions) MISSING_VIEW_CHANNEL ;;;
      require g (READ_MESSAGE_HISTORY Permissions) MISSING_READ_MESSAGE_HISTORY) w
    = (Returned tt, w1) /\
    cache w1 = cache w /\ arrays w1 = arrays w /\
    transport_calls (trace w1) = transport_calls (trace w).
Proof.
  intros Hgranted. unfold when_truthy.
  destruct (Data.guild_id data) as [g |]; [| by exists w].
  destruct (truthy_string g); [| by exists w].
  destruct (Hgranted g eq_refl) as [Hview Hread].
  unfold bind. rewrite !require_granted by done.
  eexists. split; [done |]. simpl.
  by rewrite !transport_calls_log_oracle.
Qed.

Lemma limit_exceeded_spec options :
  limit_exceeded options = true <-> exists l, limit_of options = Some l /\ 100 < l.
Proof.
  unfold limit_exceeded, limit_of.
  destruct options as [o |]; [| split; [done | by intros (l & [=] & _)]].
  destruct (Opt.limit o) as [l |]; [| split; [done | by intros (l & [=] & _)]].
  rewrite andb_true_iff, truthy_number_spec, Z.ltb_lt.
  split.
  - intros [_ H]. by exists l.
  - intros (l' & [= <-] & H). split; lia.
Qed.

(** C6.  With the permission assertions passing, [getMessages] with a
    limit present and greater than 100 returns nothing ([undefined]) and
    sends nothing, without throwing; with a limit of 100 or less, or none,
    it sends exactly one request. *)
Theorem getMessages_limit data options (w : World PermissionList) :
  (forall g, Data.guild_id data = Some g ->
     botHasPermission g [VIEW_CHANNEL Permissions] = true /\
     botHasPermission g [READ_MESSAGE_HISTORY Permissions] = true) ->
  exists o w',
    getMessages data options w = (o, w') /\
    (forall l, limit_of options = Some l -> 100 < l ->
       o = Returned None /\
       transport_calls (trace w') = transport_calls (trace w)) /\
    (limit_of options = None \/ (exists l, limit_of options = Some l /\ l <= 100) ->
       transport_calls (trace w') =
         transport_calls (trace w) ++ [messages_request data options]).
Proof.
  intros Hgranted.
  destruct (read_messages_guard data w Hgranted) as (w1 & Hguard & _ & _ & Ht).
  unfold getMessages. rewrite (bind_returned _ _ _ _ _ Hguard).
  destruct (limit_exceeded options) eqn:Hlimit.
  - apply limit_exceeded_spec in Hlimit as (l & Hl & Hgt).
    exists (Returned None), w1. split; [done |]. split; [done |].
    intros [Hnone | (l' & Hl' & Hle)]; [congruence |].
    rewrite Hl in Hl'. injection Hl' as <-. lia.
  - assert (Hnot : ~ exists l, limit_of options = Some l /\ 100 < l).
    { intros H. apply limit_exceeded_spec in H. congruence. }
    unfold bind, RequestManager_get, send, await, map_createMessage.
    fold (messages_request data options).
    destruct (RequestManager (messages_request data options)) as [payload | reason];
      simpl; [destruct payload; simpl |];
      eexists _, _; (split; [reflexivity |]); simpl;
      rewrite transport_calls_log_request, Ht;
      (split; [| done]); intros lim Hl Hgt; destruct Hnot; eauto.
Qed.

(** C8.  [edit] hands back what the transport's patch returned, as it is.
    It asks the oracle nothing, runs the same under any oracle, on guild
    channels too, and throws nothing; the cache is the
    same after the call as before: the entry of the channel id, and with it
    every field of the channel [createChannel] stored there, is untouched. *)
Theorem edit_returns_raw_patch data options (w : World PermissionList) :
  exists w',
    edit data options w =
      (Returned (RequestManager (edit_request data options)), w') /\
    trace w' = trace w ++ [TransportCall (edit_request data options)] /\
    oracle_calls (trace w') = oracle_calls (trace w) /\
    (forall oracle,
       edit (C := with_oracle C oracle) data options w = edit data options w) /\
    cache w' = cache w /\
    cache w' !! Data.id data = cache w !! Data.id data /\
    (forall w0 channel,
       createChannel data w0 = (Returned channel, w) ->
       cache w' !! Data.id data = Some channel).
Proof.
  eexists. split; [reflexivity |]. simpl.
  split; [done |].
  split; [unfold oracle_calls; rewrite omap_app; simpl; apply app_nil_r |].
  split; [done |]. split; [done |]. split; [done |].
  intros w0 channel [= <- <-]. simpl. apply lookup_insert_eq.
Qed.

(** C9.  The channel built by [createChannel] has as [mention] the string
    made of the id between the two delimiters; its [nsfw] is false when
    the payload has no [nsfw] field, and its [permissions] is the empty
    sequence when the payload has no [permission_overwrites] field.  The
    call throws nothing and stores the channel in the cache under its
    id. *)
Theorem createChannel_defaults data (w : World PermissionList) :
  exists channel w',
    createChannel data w = (Returned channel, w') /\
    mention channel = "<#" +:+ Data.id data +:+ ">" /\
    (Data.id data = "10" -> mention channel = "<#10>") /\
    (Data.nsfw data = None -> nsfw channel = false) /\
    (Data.permission_overwrites data = None -> permissions channel = []) /\
    cache w' !! Data.id data = Some channel.
Proof.
  eexists _, _. split; [reflexivity |]. simpl.
  split; [done |].
  split; [by intros -> |].
  split; [by intros -> |].
  split; [by intros -> |].
  apply lookup_insert_eq.
Qed.


(** ** Order of the checks *)

(** Whatever the arguments, an action that lacks a permission on a guild
    channel ends in the error of a missing permission, before any
    request. *)
Lemma lacking_permission_throws data a (w : World PermissionList) :
  lacks_permission data a ->
  exists e w',
    perform data a w = (Thrown (Error e), w') /\
    e ∈ (required_permissions a).*2 /\
    transport_calls (trace w') = transport_calls (trace w).
Proof.
  intros (g & [Hg Hne] & Hlack). apply truthy_string_spec in Hne.
  destruct a as [mid | options | | content | ids reason | | options | | options];
    simpl in Hlack |- *;
    unfold perform, discard, getMessage, getMessages, sendMessage,
      deleteMessages, getInvites, createInvite, getWebhooks, when_truthy,
      bind, require, call_botHasPermission, when, throw, ret;
    cbv zeta; rewrite ?Hg, ?Hne;
    try destruct (truthy_opt truthy_bool (Msg.tts (normalize content)));
    repeat match goal with
      | H : Exists _ [] |- _ => inversion H
      | H : Exists _ (_ :: _) |- _ =>
          apply Exists_cons in H as [H | H]; simpl in H
      end;
    repeat match goal with
      | |- context [botHasPermission g [?p]] =>
          destruct (botHasPermission g [p]) eqn:?; simpl; try discriminate
      end;
    (eexists _, _; split; [reflexivity |]; split;
     [by repeat constructor | simpl; by rewrite ?transport_calls_log_oracle]).
Qed.


Lemma required_errors_are_permissions a e :
  e ∈ (required_permissions a).*2 ->
  PermissionDenied e = true /\ ValidationFailed e = false.
Proof.
  rewrite list_elem_of_In.
  destruct a; simpl; try destruct (truthy_opt _ _); simpl;
    intuition subst; done.
Qed.

(** An action that lacks a permission on a guild channel ends in the error
    of the first permission it requires that the oracle refuses, before any
    request. *)
Lemma first_refused_throws data a (w : World PermissionList) :
  lacks_permission data a ->
  exists g e w',
    guild_set (Data.guild_id data) g /\
    first_refused g (required_permissions a) e /\
    perform data a w = (Thrown (Error e), w') /\
    transport_calls (trace w') = transport_calls (trace w).
Proof.
  intros (g & [Hg Hne] & Hlack).
  assert (Ht : truthy_string g = true) by (by apply truthy_string_spec).
  exists g.
  destruct a as [mid | options | | content | ids reason | | options | | options];
    simpl in Hlack |- *;
    unfold perform, discard, getMessage, getMessages, sendMessage,
      deleteMessages, getInvites, createInvite, getWebhooks, when_truthy,
      bind, require, call_botHasPermission, when, throw, ret;
    cbv zeta; rewrite ?Hg, ?Ht;
    try destruct (truthy_opt truthy_bool (Msg.tts (normalize content)));
    repeat match goal with
      | H : Exists _ [] |- _ => inversion H
      | H : Exists _ (_ :: _) |- _ =>
          apply Exists_cons in H as [H | H]; simpl in H
      end;
    repeat match goal with
      | |- context [botHasPermission g [?p]] =>
          destruct (botHasPermission g [p]) eqn:?; simpl; try discriminate
      end;
    (eexists _, _; split; [by split |];
     split; [| split; [reflexivity |
                       simpl; by rewrite ?transport_calls_log_oracle]]);
    unfold first_refused;
    first
      [ eexists [], _, _; split; [reflexivity |];
        split; [constructor | assumption]
      | eexists [_], _, _; split; [reflexivity |];
        split; [constructor; [simpl; assumption | constructor] | assumption] ].
Qed.

Lemma first_refused_is_permission g a e :
  first_refused g (required_permissions a) e ->
  PermissionDenied e = true /\ ValidationFailed e = false.
Proof.
  intros (pre & perm & post & Hreq & _).
  apply required_errors_are_permissions with (a := a).
  rewrite Hreq, fmap_app. apply elem_of_app. right.
  apply list_elem_of_here.
Qed.

(** C3, as amended.  The permission assertions run before the structural
    validation: a call on a guild channel that both breaks a structural
    rule and lacks a required permission ends in the error of the missing
    permission (the first one the action requires that the oracle refuses,
    those before it being granted), not in a validation error, and sends
    nothing. *)
Theorem permission_checked_before_validation data a (w : World PermissionList) :
  fails_validation a w ->
  lacks_permission data a ->
  exists g e w',
    guild_set (Data.guild_id data) g /\
    first_refused g (required_permissions a) e /\
    perform data a w = (Thrown (Error e), w') /\
    PermissionDenied e = true /\ ValidationFailed e = false /\
    transport_calls (trace w') = transport_calls (trace w).
Proof.
  intros _ Hlack.
  destruct (first_refused_throws data a w Hlack)
    as (g & e & w' & Hset & Hfirst & E & Ht).
  destruct (first_refused_is_permission g a e Hfirst) as [Hp Hv].
  by exists g, e, w'.
Qed.


Lemma too_long_spec content :
  too_long content = true <->
  exists s, Msg.content content = Some s /\ (2000 < String.length s)%nat.
Proof.
  unfold too_long. destruct (Msg.content content) as [s |].
  - rewrite andb_true_iff, Nat.ltb_lt, truthy_string_spec. split.
    + intros [_ H]. by exists s.
    + intros (s' & [= <-] & H). split; [| done].
      intros ->. simpl in H. lia.
  - split; [done | by intros (s & [=] & _)].
Qed.

Lemma oracle_calls_log_request (tr : list Event) r :
  oracle_calls (tr ++ [TransportCall r]) = oracle_calls tr.
Proof. unfold oracle_calls. rewrite omap_app. simpl. apply app_nil_r. Qed.

Lemma oracle_calls_log_warning (tr : list Event) m :
  oracle_calls (tr ++ [Warning m]) = oracle_calls tr.
Proof. unfold oracle_calls. rewrite omap_app. simpl. apply app_nil_r. Qed.

Lemma perform_with_oracle data a (w : World PermissionList) oracle :
  Data.guild_id data = None ->
  perform (C := with_oracle C oracle) data a w = perform data a w.
Proof.
  intros Hg.
  destruct a;
    unfold perform, discard, getMessage, getMessages, getPins, sendMessage,
      deleteMessages, getInvites, createInvite, getWebhooks, edit;
    cbv zeta; rewrite ?Hg; reflexivity.
Qed.

(** C7.  On a channel whose payload has no guild id, an action asks the
    oracle nothing and runs the same whatever oracle the client has.  It
    never throws the error of a missing permission: an error it throws
    itself is a validation error, thrown because the arguments break a
    structural rule, before any request.  When they break none, the request
    is sent. *)
Theorem no_guild_no_permission_check data a (w : World PermissionList) :
  Data.guild_id data = None ->
  exists o w',
    perform data a w = (o, w') /\
    (forall oracle, perform (C := with_oracle C oracle) data a w = (o, w')) /\
    oracle_calls (trace w') = oracle_calls (trace w) /\
    (forall e, o = Thrown (Error e) ->
       PermissionDenied e = false /\ ValidationFailed e = true /\
       fails_validation a w /\
       transport_calls (trace w') = transport_calls (trace w)) /\
    (well_formed a w -> ~ fails_validation a w ->
       exists r, transport_calls (trace w') = transport_calls (trace w) ++ [r]).
Proof.
  intros Hg. destruct (perform data a w) as [o w'] eqn:E.
  exists o, w'. split; [done |].
  split; [intros; by rewrite perform_with_oracle |].
  destruct a as [mid | options | | content | ids reason | | options | | options];
    unfold perform, discard, getMessage, getMessages, getPins, sendMessage,
      deleteMessages, getInvites, createInvite, getWebhooks, edit in E;
    cbv zeta in E; rewrite ?Hg in E;
    unfold when_truthy, bind, ret, throw, when, RequestManager_get,
      RequestManager_post, RequestManager_patch, send, await,
      map_createMessage, array_length, array_splice, logYellow in E;
    simpl in E;
    repeat (first
      [ match goal with
        | H : arrays ?w0 !! ?i = _ |- _ => rewrite H in E
        end
      | match type of E with
        | context [limit_exceeded ?o] => destruct (limit_exceeded o) eqn:Hlimit
        | context [too_long ?c] => destruct (too_long c) eqn:Hlong
        | context [RequestManager ?r] =>
            destruct (RequestManager r) as [payload | failure]
        | context [match ?p with JNull => _ | _ => _ end] => destruct p
        | context [arrays ?w0 !! ?i] => destruct (arrays w0 !! i) as [l |] eqn:Hl
        | context [(?n <? ?m)%nat] => destruct (Nat.ltb_spec n m)
        end ]; simpl in E);
    inversion E; subst; clear E; simpl;
    rewrite ?oracle_calls_log_request, ?oracle_calls_log_warning,
      ?transport_calls_log_request, ?transport_calls_log_warning;
    (split; [done |]); split;
    try (by intros e [=]);
    try (intros _ _; eexists; reflexivity);
    try (intros e [= <-]; split; [done |]; split; [done |];
         split; [first [by apply too_long_spec | by eexists] | done]);
    try (intros _ Hnf; destruct Hnf;
         first [by apply limit_exceeded_spec | by apply too_long_spec | by eexists]);
    try (intros [? Hsome] _; congruence).
Qed.


End Theory.

(** ** The scenario of the specification *)

(** Channel 10 of guild 1, with an overwrite for id 1 allowing
    VIEW_CHANNEL: actor 1 is found directly. *)
Example scenario_actor_overwrite :
  fst (create_then_hasPermission (C := test_client grant_none)
         guild_payload "1" [1024] empty_world) = Returned true.
Proof. vm_compute. reflexivity. Qed.

(** Actor 2 has no overwrite: the lookup falls back to the overwrite whose
    id is the guild id. *)
Example scenario_guild_fallback :
  fst (create_then_hasPermission (C := test_client grant_none)
         guild_payload "2" [1024] empty_world) = Returned true.
Proof. vm_compute. reflexivity. Qed.

(** A flag in neither mask is left to the oracle, asked once. *)
Example scenario_oracle_asked :
  create_then_hasPermission (C := test_client grant_all)
    guild_payload "2" [1024; 2048; 4096] empty_world =
  (Returned true,
   {| cache := {[ "10" := channel_object (C := test_client grant_all) guild_payload ]};
      arrays := ∅;
      trace := [OracleCall "1" [2048] true; OracleCall "1" [4096] true] |}).
Proof. vm_compute. reflexivity. Qed.

Example mention_of_10 :
  mention (channel_object (C := test_client grant_all) guild_payload) = "<#10>".
Proof. reflexivity. Qed.

(** ** Closed instances *)

(** C2, as stated, fails: on the direct-message channel, which has no guild
    id, the overwrite of user 2 allows VIEW_CHANNEL and the check returns
    true. *)
Lemma hasPermission_without_guild_counterexample :
  Data.guild_id dm_payload = None /\
  guildID (channel_object (C := test_client grant_none) dm_payload) = None /\
  hasPermission (C := test_client grant_none) dm_payload
    (channel_object (C := test_client grant_none) dm_payload)
    "2" [1024] empty_world = (Returned true, empty_world) /\
  fst (create_then_hasPermission (C := test_client grant_none)
         dm_payload "2" [1024] empty_world) = Returned true.
Proof. repeat split; vm_compute; reflexivity. Qed.

(** The amended C2 on the direct-message channel, for user 2. *)
Lemma hasPermission_without_guild_witness :
  exists b,
    hasPermission (C := test_client grant_all) dm_payload
      (channel_object (C := test_client grant_all) dm_payload)
      "2" [1024] empty_world = (Returned b, empty_world) /\
    (b = true <->
     exists ow,
       first_with_id (overwrites_of dm_payload) "2" ow /\
       Forall (fun perm => ~ contains (Perm.deny ow) perm /\
                           contains (Perm.allow ow) perm) [1024]).
Proof.
  apply (hasPermission_without_guild (C := test_client grant_all)).
  reflexivity.
Defined.

(** C3, as stated, fails: [deleteMessages] with one id, and [sendMessage]
    with 2001 characters, on the guild channel with no permission granted,
    end in the error of the missing permission. *)
Lemma validation_first_counterexample :
  fails_validation (DeleteMessages 0 None) (world_with_ids ["5"]) /\
  lacks_permission (C := test_client grant_none) guild_payload
    (DeleteMessages 0 None) /\
  fst (deleteMessages (C := test_client grant_none) guild_payload 0 None
         (world_with_ids ["5"])) = Thrown (Error MISSING_MANAGE_MESSAGES) /\
  fails_validation (SendMessage (inl (long_content 2001))) empty_world /\
  lacks_permission (C := test_client grant_none) guild_payload
    (SendMessage (inl (long_content 2001))) /\
  fst (sendMessage (C := test_client grant_none) guild_payload
         (inl (long_content 2001)) empty_world) =
    Thrown (Error MISSING_SEND_MESSAGES) /\
  ValidationFailed MISSING_MANAGE_MESSAGES = false /\
  ValidationFailed MISSING_SEND_MESSAGES = false.
Proof.
  split.
  { exists ["5"]. split; [reflexivity | simpl; lia]. }
  split.
  { exists "1". split; [by split |]. apply Exists_cons_hd. reflexivity. }
  split; [vm_compute; reflexivity |].
  split.
  { exists (long_content 2001). split; [reflexivity |].
    apply Nat.ltb_lt. vm_compute. reflexivity. }
  split.
  { exists "1". split; [by split |]. apply Exists_cons_hd. reflexivity. }
  split; [vm_compute; reflexivity |].
  split; reflexivity.
Qed.

(** The amended C3 on [deleteMessages] with one id and nothing granted:
    the error is MISSING_MANAGE_MESSAGES. *)
Lemma permission_checked_before_validation_witness :
  (exists g e w',
     guild_set (Data.guild_id guild_payload) g /\
     first_refused (C := test_client grant_none) g
       (required_permissions (C := test_client grant_none)
          (DeleteMessages 0 None)) e /\
     perform (C := test_client grant_none) guild_payload (DeleteMessages 0 None)
       (world_with_ids ["5"]) = (Thrown (Error e), w') /\
     PermissionDenied e = true /\ ValidationFailed e = false /\
     transport_calls (trace w') = transport_calls (trace (world_with_ids ["5"]))) /\
  (perform (C := test_client grant_none) guild_payload (DeleteMessages 0 None)
     (world_with_ids ["5"])).1 = Thrown (Error MISSING_MANAGE_MESSAGES).
Proof.
  split; [| reflexivity].
  apply (permission_checked_before_validation (C := test_client grant_none)).
  - exists ["5"]. split; [reflexivity | simpl; lia].
  - exists "1". split; [by split |]. apply Exists_cons_hd. reflexivity.
Defined.

(** C4 on 150 ids: one request with the first 100, and the warning. *)
Lemma deleteMessages_bounds_witness :
  exists o w',
    deleteMessages (C := test_client grant_all) guild_payload 0 None
      (world_with_ids (message_ids 150)) = (o, w') /\
    o = Returned (Resolved (JArray [])) /\
    transport_calls (trace w') =
      [bulk_delete_request guild_payload (take 100 (message_ids 150)) None] /\
    take 100 (message_ids 150) = message_ids 100 /\
    warnings (trace w') = [bulk_delete_warning].
Proof.
  destruct (deleteMessages_bounds (C := test_client grant_all) guild_payload 0 None
              (world_with_ids (message_ids 150)) (message_ids 150)
              eq_refl (fun _ _ => eq_refl))
    as (o & w' & E & _ & Hmany & _).
  destruct Hmany as (Ho & Ht & _ & Hw).
  { apply Nat.ltb_lt. vm_compute. reflexivity. }
  exists o, w'. split; [exact E |]. split; [exact Ho |].
  split; [exact Ht |]. split; [vm_compute; reflexivity | exact Hw].
Defined.

(** C10 on 150 ids: the caller's array is left with the last 50. *)
Lemma deleteMessages_mutates_ids_witness :
  exists promise w',
    deleteMessages (C := test_client grant_all) guild_payload 0 None
      (world_with_ids (message_ids 150)) = (Returned promise, w') /\
    arrays w' !! 0%nat = Some (drop 100 (message_ids 150)) /\
    length (drop 100 (message_ids 150)) = 50%nat.
Proof.
  destruct (deleteMessages_mutates_ids (C := test_client grant_all) guild_payload
              0 None (world_with_ids (message_ids 150)) (message_ids 150)
              eq_refl (fun _ _ => eq_refl))
    as (promise & w' & E & _ & Ha & _).
  { apply Nat.leb_le. vm_compute. reflexivity. }
  exists promise, w'. split; [exact E |]. split; [exact Ha |].
  vm_compute. reflexivity.
Defined.

(** C5 on a string of 2001 characters. *)
Lemma sendMessage_too_long_witness :
  exists w',
    sendMessage (C := test_client grant_all) guild_payload
      (inl (long_content 2001)) empty_world =
      (Thrown (Error MESSAGE_MAX_LENGTH), w') /\
    transport_calls (trace w') = [].
Proof.
  destruct (sendMessage_too_long (C := test_client grant_all) guild_payload
              (inl (long_content 2001)) empty_world (long_content 2001) eq_refl)
    as [_ (w' & E & Ht)].
  - apply Nat.ltb_lt. vm_compute. reflexivity.
  - intros g _. split; [reflexivity | intros _; reflexivity].
  - exists w'. split; [exact E | exact Ht].
Defined.

(** C6 on a limit of 150. *)
Lemma getMessages_limit_witness :
  exists o w',
    getMessages (C := test_client grant_all) guild_payload
      (Some {| Opt.limit := Some 150; Opt.after := None;
               Opt.before := None; Opt.around := None |}) empty_world = (o, w') /\
    o = Returned None /\ transport_calls (trace w') = [].
Proof.
  destruct (getMessages_limit (C := test_client grant_all) guild_payload
              (Some {| Opt.limit := Some 150; Opt.after := None;
                       Opt.before := None; Opt.around := None |}) empty_world)
    as (o & w' & E & Hover & _).
  - intros g _. split; reflexivity.
  - destruct (Hover 150 eq_refl) as [Ho Ht]; [lia |].
    exists o, w'. split; [exact E |]. split; [exact Ho | exact Ht].
Defined.

(** C7 on the direct-message channel: sending a message runs the same
    whether the oracle grants everything or nothing, and asks it nothing. *)
Lemma no_guild_no_permission_check_witness :
  exists o w',
    perform (C := test_client grant_none) dm_payload (SendMessage (inl "hello"))
      empty_world = (o, w') /\
    perform (C := test_client grant_all) dm_payload (SendMessage (inl "hello"))
      empty_world = (o, w') /\
    oracle_calls (trace w') = [].
Proof.
  destruct (no_guild_no_permission_check (C := test_client grant_none) dm_payload
              (SendMessage (inl "hello")) empty_world eq_refl)
    as (o & w' & E & Hany & Hcalls & _).
  exists o, w'. split; [exact E |]. split; [exact (Hany grant_all) | exact Hcalls].
Defined.

(** * The rest of the module *)

Section Coverage.

Context {Message PermissionList : Type} {C : Collaborators Message PermissionList}.

Local Abbreviation M := (Computation PermissionList).

Lemma guild_set_truthy guildId g :
  guild_set guildId g -> guildId = Some g /\ truthy_string g = true.
Proof. intros [-> Hne]. split; [done |]. by apply truthy_string_spec. Qed.

Lemma oracle_calls_log_oracle (tr : list Event) g ps b :
  oracle_calls (tr ++ [OracleCall g ps b]) = oracle_calls tr ++ [(g, ps)].
Proof. unfold oracle_calls. by rewrite omap_app. Qed.

Lemma warnings_log_oracle (tr : list Event) g ps b :
  warnings (tr ++ [OracleCall g ps b]) = warnings tr.
Proof. unfold warnings. rewrite omap_app. simpl. apply app_nil_r. Qed.

Lemma warnings_log_request (tr : list Event) r :
  warnings (tr ++ [TransportCall r]) = warnings tr.
Proof. unfold warnings. rewrite omap_app. simpl. apply app_nil_r. Qed.

(** ** [getMessage] and [getMessages]: the order of the two assertions *)

(** The guard of [getMessage] and [getMessages] reports the first missing
    permission.  On a guild channel, a refused VIEW_CHANNEL ends either
    method in MISSING_VIEW_CHANNEL after that single question:
    READ_MESSAGE_HISTORY is not asked about.  With VIEW_CHANNEL granted and
    READ_MESSAGE_HISTORY refused, the error is
    MISSING_READ_MESSAGE_HISTORY, after the two questions in that order.
    Nothing is sent in either case. *)
Theorem read_guard_reports_first_missing data g id options
    (w : World PermissionList) :
  guild_set (Data.guild_id data) g ->
  (botHasPermission g [VIEW_CHANNEL Permissions] = false ->
     getMessage data id w =
       (Thrown (Error MISSING_VIEW_CHANNEL),
        log (OracleCall g [VIEW_CHANNEL Permissions] false) w) /\
     getMessages data options w =
       (Thrown (Error MISSING_VIEW_CHANNEL),
        log (OracleCall g [VIEW_CHANNEL Permissions] false) w)) /\
  (botHasPermission g [VIEW_CHANNEL Permissions] = true ->
   botHasPermission g [READ_MESSAGE_HISTORY Permissions] = false ->
     getMessage data id w =
       (Thrown (Error MISSING_READ_MESSAGE_HISTORY),
        log (OracleCall g [READ_MESSAGE_HISTORY Permissions] false)
          (log (OracleCall g [VIEW_CHANNEL Permissions] true) w)) /\
     getMessages data options w =
       (Thrown (Error MISSING_READ_MESSAGE_HISTORY),
        log (OracleCall g [READ_MESSAGE_HISTORY Permissions] false)
          (log (OracleCall g [VIEW_CHANNEL Permissions] true) w))).
Proof.
  intros Hset. apply guild_set_truthy in Hset as [Hg Ht].
  split.
  - intros Hview.
    split; unfold getMessage, getMessages;
      apply bind_thrown; unfold when_truthy; rewrite Hg, Ht;
      apply bind_thrown; by apply require_denied.
  - intros Hview Hread.
    split; unfold getMessage, getMessages;
      apply bind_thrown; unfold when_truthy; rewrite Hg, Ht;
      rewrite (bind_returned _ _ _ _ _ (require_granted _ _ _ _ Hview));
      by apply require_denied.
Qed.

(** ** [getMessage]: dispatch *)

(** Once its assertions pass (or without guild id), [getMessage] sends
    exactly one GET of the single-message path for the channel id and the
    message id, with no body.  It ends with the message built from the
    payload the transport resolves with, or with the transport's rejection;
    cache and arrays are left as they were. *)
Theorem getMessage_dispatch data id (w : World PermissionList) :
  (forall g, Data.guild_id data = Some g ->
     botHasPermission g [VIEW_CHANNEL Permissions] = true /\
     botHasPermission g [READ_MESSAGE_HISTORY Permissions] = true) ->
  exists w',
    getMessage data id w =
      (one_message (RequestManager (message_request data id)), w') /\
    transport_calls (trace w') =
      transport_calls (trace w) ++ [message_request data id] /\
    cache w' = cache w /\ arrays w' = arrays w.
Proof.
  intros Hgranted.
  destruct (read_messages_guard data w Hgranted) as (w1 & Hguard & Hc & Ha & Ht).
  unfold getMessage. rewrite (bind_returned _ _ _ _ _ Hguard).
  unfold bind, RequestManager_get, send, await, one_message.
  fold (message_request data id).
  destruct (RequestManager (message_request data id)); simpl;
    eexists; (split; [reflexivity |]); simpl;
    by rewrite transport_calls_log_request, Ht.
Qed.

(** ** [getPins] *)

(** [getPins] asserts no permission, on guild channels either: it asks the
    oracle nothing and runs the same under any oracle.  It sends exactly one
    GET of the pins path and ends with one message per element of the array
    the transport resolves with, in the same order; a payload that is no
    array ends it in a TypeError, a rejection in that rejection. *)
Theorem getPins_unguarded data (w : World PermissionList) :
  getPins data w =
    (many_messages (RequestManager (pins_request data)),
     log (TransportCall (pins_request data)) w) /\
  (forall oracle, getPins (C := with_oracle C oracle) data w = getPins data w) /\
  oracle_calls (trace (getPins data w).2) = oracle_calls (trace w) /\
  (forall items,
     RequestManager (pins_request data) = Resolved (JArray items) ->
     exists messages,
       (getPins data w).1 = Returned messages /\
       length messages = length items /\
       forall i item, items !! i = Some item ->
                      messages !! i = Some (createMessage item)).
Proof.
  assert (E : getPins data w =
    (many_messages (RequestManager (pins_request data)),
     log (TransportCall (pins_request data)) w)).
  { unfold getPins, bind, RequestManager_get, send, await, map_createMessage,
      many_messages.
    fold (pins_request data).
    destruct (RequestManager (pins_request data)) as [[]|]; reflexivity. }
  split; [exact E |]. split; [done |]. rewrite E. simpl.
  split; [apply oracle_calls_log_request |].
  intros items ->. simpl. eexists. split; [reflexivity |].
  split; [apply length_map |].
  intros i item Hi. by rewrite list_lookup_fmap, Hi.
Qed.

(** ** [getMessages]: the result *)

(** With its assertions passing and a limit that is absent or at most 100
    (zero and negative limits included), [getMessages] hands the options to
    the transport unchanged and ends with one message per element of the
    array the transport resolves with; a payload that is no array ends it in
    a TypeError, a rejection in that rejection. *)
Theorem getMessages_maps_messages data options (w : World PermissionList) :
  (forall g, Data.guild_id data = Some g ->
     botHasPermission g [VIEW_CHANNEL Permissions] = true /\
     botHasPermission g [READ_MESSAGE_HISTORY Permissions] = true) ->
  (limit_of options = None \/ exists l, limit_of options = Some l /\ l <= 100) ->
  (getMessages data options w).1 =
    match many_messages (RequestManager (messages_request data options)) with
    | Returned messages => Returned (Some messages)
    | Thrown x => Thrown x
    end.
Proof.
  intros Hgranted Hlimit.
  destruct (read_messages_guard data w Hgranted) as (w1 & Hguard & _).
  unfold getMessages. rewrite (bind_returned _ _ _ _ _ Hguard).
  destruct (limit_exceeded options) eqn:Hover.
  { apply limit_exceeded_spec in Hover as (l & Hl & Hgt).
    destruct Hlimit as [Hnone | (l' & Hl' & Hle)]; [congruence |].
    rewrite Hl in Hl'. injection Hl' as <-. lia. }
  unfold bind, RequestManager_get, send, await, map_createMessage, many_messages.
  fold (messages_request data options).
  destruct (RequestManager (messages_request data options)) as [[]|]; reflexivity.
Qed.

(** ** [sendMessage]: dispatch and the TTS assertion *)

(** With its assertions passing and a content that is absent, empty or of at
    most 2000 characters, [sendMessage] sends exactly one POST to the
    messages path, whose body is the normalized argument, and ends with the
    message built from the payload or with the transport's rejection. *)
Theorem sendMessage_dispatch data content (w : World PermissionList) :
  (forall g, Data.guild_id data = Some g ->
     botHasPermission g [SEND_MESSAGES Permissions] = true /\
     (Msg.tts (normalize content) = Some true ->
      botHasPermission g [SEND_TTS_MESSAGES Permissions] = true)) ->
  (forall s, Msg.content (normalize content) = Some s ->
             (String.length s <= 2000)%nat) ->
  exists w',
    sendMessage data content w =
      (one_message (RequestManager (send_request data content)), w') /\
    transport_calls (trace w') =
      transport_calls (trace w) ++ [send_request data content] /\
    cache w' = cache w /\ arrays w' = arrays w.
Proof.
  intros Hgranted Hshort.
  destruct (send_messages_guard data (normalize content) w Hgranted)
    as (w1 & Hguard & Hc & Ha & Ht).
  unfold sendMessage. cbv zeta. rewrite (bind_returned _ _ _ _ _ Hguard).
  destruct (too_long (normalize content)) eqn:Hlong.
  { apply too_long_spec in Hlong as (s & Hs & Hgt).
    specialize (Hshort s Hs). lia. }
  unfold bind, when, ret, RequestManager_post, send, await, one_message.
  fold (send_request data content).
  destruct (RequestManager (send_request data content)); simpl;
    eexists; (split; [reflexivity |]); simpl;
    by rewrite transport_calls_log_request, Ht.
Qed.

(** On a guild channel, [sendMessage] asks about SEND_TTS_MESSAGES only for
    a message whose [tts] is true, and only after SEND_MESSAGES was granted.
    A refused SEND_MESSAGES ends the call in MISSING_SEND_MESSAGES after
    that single question, whatever [tts] is; with SEND_MESSAGES granted, a
    [tts] message whose TTS permission is refused ends in
    MISSING_SEND_TTS_MESSAGE without a request, and a message whose [tts] is
    absent or false is never refused for TTS: the oracle is asked the single
    question about SEND_MESSAGES. *)
Theorem sendMessage_tts_guard data g content (w : World PermissionList) :
  guild_set (Data.guild_id data) g ->
  (botHasPermission g [SEND_MESSAGES Permissions] = false ->
     sendMessage data content w =
       (Thrown (Error MISSING_SEND_MESSAGES),
        log (OracleCall g [SEND_MESSAGES Permissions] false) w)) /\
  (botHasPermission g [SEND_MESSAGES Permissions] = true ->
   Msg.tts (normalize content) = Some true ->
   botHasPermission g [SEND_TTS_MESSAGES Permissions] = false ->
     sendMessage data content w =
       (Thrown (Error MISSING_SEND_TTS_MESSAGE),
        log (OracleCall g [SEND_TTS_MESSAGES Permissions] false)
          (log (OracleCall g [SEND_MESSAGES Permissions] true) w))) /\
  (botHasPermission g [SEND_MESSAGES Permissions] = true ->
   Msg.tts (normalize content) <> Some true ->
     oracle_calls (trace (sendMessage data content w).2) =
       oracle_calls (trace w) ++ [(g, [SEND_MESSAGES Permissions])] /\
     forall e, (sendMessage data content w).1 = Thrown (Error e) ->
               e = MESSAGE_MAX_LENGTH).
Proof.
  intros Hset. apply guild_set_truthy in Hset as [Hg Ht].
  split; [| split].
  - intros Hsend. unfold sendMessage. cbv zeta.
    apply bind_thrown. unfold when_truthy. rewrite Hg, Ht.
    apply bind_thrown. by apply require_denied.
  - intros Hsend Htts Hno. unfold sendMessage. cbv zeta.
    apply bind_thrown. unfold when_truthy. rewrite Hg, Ht.
    rewrite (bind_returned _ _ _ _ _ (require_granted _ _ _ _ Hsend)).
    rewrite Htts. simpl. by apply require_denied.
  - intros Hsend Htts. unfold sendMessage. cbv zeta.
    assert (Hskip : truthy_opt truthy_bool (Msg.tts (normalize content)) = false).
    { destruct (Msg.tts (normalize content)) as [[|] |]; done. }
    assert (Hguard :
      when_truthy (Data.guild_id data) (fun g =>
        require g (SEND_MESSAGES Permissions) MISSING_SEND_MESSAGES ;;;
        if truthy_opt truthy_bool (Msg.tts (normalize content))
        then require g (SEND_TTS_MESSAGES Permissions) MISSING_SEND_TTS_MESSAGE
        else ret tt) w
      = (Returned tt, log (OracleCall g [SEND_MESSAGES Permissions] true) w)).
    { unfold when_truthy. rewrite Hg, Ht, Hskip.
      by rewrite (bind_returned _ _ _ _ _ (require_granted _ _ _ _ Hsend)). }
    rewrite (bind_returned _ _ _ _ _ Hguard).
    unfold bind, when, ret, throw, RequestManager_post, send, await.
    destruct (too_long (normalize content)); simpl.
    + split; [apply oracle_calls_log_oracle |]. by intros e [= <-].
    + destruct (RequestManager _); simpl;
        rewrite oracle_calls_log_request, oracle_calls_log_oracle;
        (split; [done |]); by intros e [=].
Qed.

(** ** [getInvites], [createInvite], [getWebhooks] *)

Lemma guarded_by_intro data perm err request (rest : M Promise)
    (w : World PermissionList) :
  (forall w1, rest w1 = (Returned (RequestManager request),
                         log (TransportCall request) w1)) ->
  guarded_by data perm err request
    (when_truthy (Data.guild_id data) (fun g => require g perm err) ;;; rest) w.
Proof.
  intros Hrest. unfold guarded_by, when_truthy.
  destruct (Data.guild_id data) as [g |] eqn:Hg.
  - destruct (truthy_string g) eqn:Ht.
    + destruct (botHasPermission g [perm]) eqn:Hb.
      * rewrite (bind_returned _ _ _ _ _ (require_granted _ _ _ _ Hb)), Hrest.
        eexists _, _. split; [reflexivity |]. simpl.
        rewrite warnings_log_request, warnings_log_oracle,
          transport_calls_log_request, transport_calls_log_oracle.
        split; [done |]. split; [done |]. split; [done |]. split.
        -- intros (g' & [[= <-] _] & Hno). congruence.
        -- done.
      * rewrite (bind_thrown _ _ _ _ _ (require_denied _ _ _ _ Hb)).
        eexists _, _. split; [reflexivity |]. simpl.
        rewrite warnings_log_oracle, transport_calls_log_oracle.
        split; [done |]. split; [done |]. split; [done |]. split.
        -- done.
        -- intros Hyes. rewrite Hyes in Hb; [done |].
           split; [done |]. by apply truthy_string_spec.
    + unfold bind, ret. rewrite Hrest.
      eexists _, _. split; [reflexivity |]. simpl.
      rewrite warnings_log_request, transport_calls_log_request.
      split; [done |]. split; [done |]. split; [done |]. split.
      * intros (g' & [[= <-] Hne] & _).
        apply truthy_string_spec in Hne. congruence.
      * done.
  - unfold bind, ret. rewrite Hrest.
    eexists _, _. split; [reflexivity |]. simpl.
    rewrite warnings_log_request, transport_calls_log_request.
    split; [done |]. split; [done |]. split; [done |]. split.
    + by intros (g' & [[=] _] & _).
    + done.
Qed.

(** [getInvites] is guarded by MANAGE_CHANNELS, [createInvite] by
    CREATE_INSTANT_INVITE and [getWebhooks] by MANAGE_WEBHOOKS, each with
    its own error.  On a guild channel where the oracle refuses the
    permission the method throws that error and sends nothing; otherwise it
    sends its one request (the invite options as the body of
    [createInvite]) and returns the transport's promise as it is, without
    awaiting it: a rejection is returned, not thrown.  Cache, arrays and
    warnings are left as they were. *)
Theorem invites_and_webhooks_guarded data options (w : World PermissionList) :
  guarded_by data (MANAGE_CHANNELS Permissions) MISSING_MANAGE_CHANNELS
    (invites_request data) (getInvites data) w /\
  guarded_by data (CREATE_INSTANT_INVITE Permissions) MISSING_CREATE_INSTANT_INVITE
    (create_invite_request data options) (createInvite data options) w /\
  guarded_by data (MANAGE_WEBHOOKS Permissions) MISSING_MANAGE_WEBHOOKS
    (webhooks_request data) (getWebhooks data) w.
Proof.
  split; [| split]; unfold getInvites, createInvite, getWebhooks;
    apply guarded_by_intro; reflexivity.
Qed.

(** ** [deleteMessages]: failures and repeated calls *)

(** On an [ids] argument that is an array, a call of [deleteMessages] that
    throws has changed nothing but the record of the oracle's answer: the
    caller's array is as it was, no request was sent and no warning logged.
    What it throws is the error of the missing permission or the
    below-minimum error, the latter exactly when the array holds fewer than
    2 ids and the permission is not refused. *)
Theorem deleteMessages_failure_keeps_ids data ids reason
    (w : World PermissionList) l x w' :
  arrays w !! ids = Some l ->
  deleteMessages data ids reason w = (Thrown x, w') ->
  arrays w' = arrays w /\ cache w' = cache w /\
  transport_calls (trace w') = transport_calls (trace w) /\
  warnings (trace w') = warnings (trace w) /\
  (x = Error MISSING_MANAGE_MESSAGES \/
   (x = Error DELETE_MESSAGES_MIN /\ (length l < 2)%nat)).
Proof.
  unfold deleteMessages, when_truthy, bind, require, call_botHasPermission,
    when, throw, ret, array_length, array_splice, logYellow,
    RequestManager_post, send.
  intros Hl E.
  repeat (first
    [ match goal with
      | H : arrays ?w0 !! ?i = _ |- _ => rewrite H in E
      end
    | match type of E with
      | context [Data.guild_id data] => destruct (Data.guild_id data) as [g |]
      | context [truthy_string ?g] => destruct (truthy_string g)
      | context [botHasPermission ?g ?ps] => destruct (botHasPermission g ps)
      | context [(?n <? ?m)%nat] => destruct (Nat.ltb_spec n m)
      end ]; simpl in E);
    inversion E; subst; clear E; simpl;
    rewrite ?transport_calls_log_oracle, ?warnings_log_oracle;
    repeat (split; [done |]); auto.
Qed.

Lemma deleteMessages_too_few data ids reason (w : World PermissionList) l :
  arrays w !! ids = Some l ->
  (forall g, Data.guild_id data = Some g ->
             botHasPermission g [MANAGE_MESSAGES Permissions] = true) ->
  (length l < 2)%nat ->
  exists w',
    deleteMessages data ids reason w = (Thrown (Error DELETE_MESSAGES_MIN), w') /\
    transport_calls (trace w') = transport_calls (trace w) /\
    arrays w' = arrays w.
Proof.
  intros Hl Hgranted Hshort.
  destruct (manage_messages_guard data w Hgranted)
    as (w1 & Hguard & Hc & Ha & Ht & Hw).
  exists w1. split; [| done].
  unfold deleteMessages. rewrite (bind_returned _ _ _ _ _ Hguard).
  unfold bind, array_length. rewrite Ha, Hl.
  by destruct (Nat.ltb_spec (length l) 2); [| lia].
Qed.

(** Calling [deleteMessages] twice with the same array does not delete
    twice: the first call has emptied the array of its first 100 ids.  With
    2 to 101 ids the second call finds fewer than 2 left and throws the
    below-minimum error, so that only the first request is sent; with 102
    ids or more it sends the next 100, and the array is left with what
    follows the first 200. *)
Theorem deleteMessages_twice data ids reason reason'
    (w : World PermissionList) l :
  arrays w !! ids = Some l ->
  (forall g, Data.guild_id data = Some g ->
             botHasPermission g [MANAGE_MESSAGES Permissions] = true) ->
  (2 <= length l)%nat ->
  exists o w',
    (deleteMessages data ids reason ;;; deleteMessages data ids reason') w =
      (o, w') /\
    ((length l < 102)%nat ->
       o = Thrown (Error DELETE_MESSAGES_MIN) /\
       transport_calls (trace w') =
         transport_calls (trace w) ++
         [bulk_delete_request data (take 100 l) reason] /\
       arrays w' !! ids = Some (drop 100 l)) /\
    ((102 <= length l)%nat ->
       o = Returned (RequestManager
             (bulk_delete_request data (take 100 (drop 100 l)) reason')) /\
       transport_calls (trace w') =
         transport_calls (trace w) ++
         [bulk_delete_request data (take 100 l) reason;
          bulk_delete_request data (take 100 (drop 100 l)) reason'] /\
       arrays w' !! ids = Some (drop 200 l)).
Proof.
  intros Hl Hgranted Hlen.
  destruct (deleteMessages_dispatch data ids reason w l Hl Hgranted Hlen)
    as (w1 & E1 & Ht1 & _ & _ & Ha1).
  assert (Hl1 : arrays w1 !! ids = Some (drop 100 l))
    by (rewrite Ha1; apply lookup_insert_eq).
  rewrite (bind_returned _ _ _ _ _ E1).
  destruct (Nat.ltb_spec (length l) 102) as [Hshort | Hlong].
  - destruct (deleteMessages_too_few data ids reason' w1 _ Hl1 Hgranted)
      as (w2 & E2 & Ht2 & Ha2); [rewrite length_drop; lia |].
    exists (Thrown (Error DELETE_MESSAGES_MIN)), w2.
    split; [exact E2 |]. split; [| intros; lia].
    intros _. split; [done |]. split; [congruence |]. by rewrite Ha2.
  - destruct (deleteMessages_dispatch data ids reason' w1 _ Hl1 Hgranted)
      as (w2 & E2 & Ht2 & _ & _ & Ha2); [rewrite length_drop; lia |].
    eexists _, w2. split; [exact E2 |]. split; [intros; lia |].
    intros _. split; [done |]. split.
    + rewrite Ht2, Ht1, <- app_assoc. done.
    + rewrite Ha2, lookup_insert_eq, drop_drop. done.
Qed.

(** ** [createChannel]: the cache *)

(** [createChannel] stores the channel it returns under the id of the
    payload, replacing what was there, and touches nothing else: the other
    entries of the cache, the arrays and the trace are as before (it sends
    nothing and asks the oracle nothing).  Creating a channel for [d1] and
    then one for [d2] leaves the channel of [d2] under its id; under the
    same id nothing of the first creation is left, the world being the one
    the second creation alone would give; under different ids the channel
    of [d1] is still there. *)
Theorem createChannel_last_write_wins d1 d2 (w : World PermissionList) :
  exists w',
    (createChannel d1 ;;; createChannel d2) w = (Returned (channel_object d2), w') /\
    cache w' !! Data.id d2 = Some (channel_object d2) /\
    (Data.id d1 = Data.id d2 -> w' = (createChannel d2 w).2) /\
    (Data.id d1 <> Data.id d2 ->
       cache w' !! Data.id d1 = Some (channel_object d1)) /\
    (forall other, other <> Data.id d1 -> other <> Data.id d2 ->
       cache w' !! other = cache w !! other) /\
    arrays w' = arrays w /\ trace w' = trace w.
Proof.
  eexists. split; [reflexivity |]. simpl.
  split; [apply lookup_insert_eq |].
  split; [intros ->; by rewrite insert_insert_eq |].
  split; [intros Hne; by rewrite lookup_insert_ne, lookup_insert_eq |].
  split; [| done].
  intros other H1 H2. by rewrite !lookup_insert_ne.
Qed.

(** ** [hasPermission]: what it leaves behind, and edge inputs *)

(** A question [hasPermission] may put to the oracle about [required]: one
    flag of the list, alone, under the guild id of the channel, which is
    set, the flag being in neither mask of the selected overwrite. *)
Lemma check_flag_asks ow (channel : Channel PermissionList) perm
    (w : World PermissionList) :
  exists b w' calls,
    check_flag ow channel perm w = (Returned b, w') /\
    trace w' = trace w ++ calls /\ (length calls <= 1)%nat /\
    Forall (fun ev => exists g,
              ev = OracleCall g [perm] (botHasPermission g [perm]) /\
              guild_set (guildID channel) g /\
              ~ contains (Perm.deny ow) perm /\
              ~ contains (Perm.allow ow) perm) calls.
Proof.
  unfold check_flag, contains.
  destruct (truthy_number (bitand (Perm.deny ow) perm)) eqn:Hdeny.
  { exists false, w, []. rewrite app_nil_r. repeat split; [simpl; lia | done]. }
  destruct (truthy_number (bitand (Perm.allow ow) perm)) eqn:Hallow.
  { exists true, w, []. rewrite app_nil_r. repeat split; [simpl; lia | done]. }
  assert (Hd : ~ bitand (Perm.deny ow) perm <> 0).
  { intros H. apply truthy_number_spec in H. congruence. }
  assert (Ha : ~ bitand (Perm.allow ow) perm <> 0).
  { intros H. apply truthy_number_spec in H. congruence. }
  destruct (guildID channel) as [g |] eqn:Hg.
  - destruct (truthy_string g) eqn:Ht.
    + eexists _, _, [_]. split; [reflexivity |]. split; [reflexivity |].
      split; [simpl; lia |]. constructor; [| done].
      exists g. split; [done |]. split; [| done].
      split; [done |]. by apply truthy_string_spec.
    + exists false, w, []. rewrite app_nil_r. repeat split; [simpl; lia | done].
  - exists false, w, []. rewrite app_nil_r. repeat split; [simpl; lia | done].
Qed.

Lemma selected_overwrite data (channel : Channel PermissionList) id ow :
  selects (overwrites_of data) id (guildID channel) (Some ow) ->
  or_else
    (find_overwrite data (fun perm => bool_decide (Perm.id perm = id)))
    (find_overwrite data
       (fun perm => bool_decide (Some (Perm.id perm) = guildID channel)))
  = Some ow.
Proof.
  intros Hsel. eapply selects_unique; [apply lookup_selects | exact Hsel].
Qed.

(** [hasPermission] never throws, sends nothing, logs no warning and leaves
    cache and arrays as they were: all it adds to the trace are questions to
    the oracle, at most one per required flag.  Each is about a single flag
    of the list, under the channel's guild id, and only about a flag that is
    in neither mask of the selected overwrite: the oracle is never asked
    what the overwrite decides. *)
Theorem hasPermission_only_asks_oracle data (channel : Channel PermissionList)
    id required (w : World PermissionList) :
  exists b w' calls,
    hasPermission data channel id required w = (Returned b, w') /\
    cache w' = cache w /\ arrays w' = arrays w /\
    trace w' = trace w ++ calls /\
    (length calls <= length required)%nat /\
    Forall (fun ev => exists g perm,
              ev = OracleCall g [perm] (botHasPermission g [perm]) /\
              guild_set (guildID channel) g /\ perm ∈ required /\
              forall ow,
                selects (overwrites_of data) id (guildID channel) (Some ow) ->
                ~ contains (Perm.deny ow) perm /\
                ~ contains (Perm.allow ow) perm) calls.
Proof.
  unfold hasPermission.
  destruct (or_else _ _) as [ow |] eqn:Hsel.
  2: { exists false, w, []. rewrite app_nil_r. repeat split; [simpl; lia | done]. }
  assert (Hown : forall ow',
    selects (overwrites_of data) id (guildID channel) (Some ow') -> ow' = ow).
  { intros ow' H. apply selected_overwrite in H. congruence. }
  clear Hsel. revert w.
  induction required as [| p rest IH]; intros w; simpl.
  - exists true, w, []. rewrite app_nil_r. repeat split; [simpl; lia | done].
  - unfold bind.
    destruct (check_flag_spec ow channel p w) as (b0 & w0 & E0 & _ & Hc & Ha).
    destruct (check_flag_asks ow channel p w)
      as (b & w1 & calls1 & E & Ht & Hlen & Hcalls).
    rewrite E in E0. injection E0 as -> ->. rewrite E.
    assert (Hcalls' : Forall (fun ev => exists g perm,
              ev = OracleCall g [perm] (botHasPermission g [perm]) /\
              guild_set (guildID channel) g /\ perm ∈ p :: rest /\
              forall ow',
                selects (overwrites_of data) id (guildID channel) (Some ow') ->
                ~ contains (Perm.deny ow') perm /\
                ~ contains (Perm.allow ow') perm) calls1).
    { eapply Forall_impl; [exact Hcalls |].
      intros ev (g & -> & Hg & Hd & Hal). exists g, p.
      split; [done |]. split; [done |]. split; [apply list_elem_of_here |].
      intros ow' Hs. by rewrite (Hown ow' Hs). }
    destruct b0.
    + destruct (IH w0) as (b2 & w2 & calls2 & -> & Hc2 & Ha2 & Ht2 & Hlen2 & Hcalls2).
      exists b2, w2, (calls1 ++ calls2).
      split; [done |]. split; [congruence |]. split; [congruence |].
      split; [by rewrite Ht2, Ht, app_assoc |].
      split; [rewrite length_app; lia |].
      apply Forall_app. split; [done |].
      eapply Forall_impl; [exact Hcalls2 |].
      intros ev (g & perm & -> & Hg & Hin & Hmasks). exists g, perm.
      split; [done |]. split; [done |]. split; [| done].
      by apply list_elem_of_further.
    + exists false, w0, calls1.
      split; [done |]. split; [done |]. split; [done |]. split; [done |].
      split; [lia | done].
Qed.

(** With an empty list of required permissions, [hasPermission] asks
    nothing and returns true exactly when an overwrite is selected: an
    actor with no overwrite on a channel whose guild has none is refused
    even the empty requirement. *)
Theorem hasPermission_empty_requirement data (channel : Channel PermissionList)
    id (w : World PermissionList) :
  exists b,
    hasPermission data channel id [] w = (Returned b, w) /\
    (b = true <->
     exists ow, selects (overwrites_of data) id (guildID channel) (Some ow)).
Proof.
  pose proof (lookup_selects data channel id) as Hsel.
  unfold hasPermission.
  destruct (or_else _ _) as [ow |]; simpl.
  - exists true. split; [done |]. split; [by exists ow | done].
  - exists false. split; [done |]. split; [done |].
    intros (ow & Hsome).
    by pose proof (selects_unique _ _ _ None (Some ow) Hsel Hsome).
Qed.

(** ** Flags of several bits, and flags beyond 32 bits *)

Lemma lor_small p q :
  0 <= p < 2 ^ 31 -> 0 <= q < 2 ^ 31 -> 0 <= Z.lor p q < 2 ^ 31.
Proof.
  intros Hp Hq. split; [apply Z.lor_nonneg; lia |].
  destruct (Z.eq_dec (Z.lor p q) 0) as [-> | Hne]; [lia |].
  assert (Hpos : 0 < Z.lor p q) by (pose proof (Z.lor_nonneg p q); lia).
  apply Z.log2_lt_pow2; [done |].
  rewrite Z.log2_lor by lia.
  apply Z.max_lub_lt.
  - destruct (Z.eq_dec p 0) as [-> | Hp0]; [done |].
    apply Z.log2_lt_pow2; lia.
  - destruct (Z.eq_dec q 0) as [-> | Hq0]; [done |].
    apply Z.log2_lt_pow2; lia.
Qed.

(** A mask contains a combined flag as soon as it contains one of its
    parts. *)
Lemma contains_lor mask p q :
  0 <= mask < 2 ^ 31 -> 0 <= p < 2 ^ 31 -> 0 <= q < 2 ^ 31 ->
  contains mask (Z.lor p q) <-> contains mask p \/ contains mask q.
Proof.
  intros Hm Hp Hq. unfold contains.
  rewrite !bitand_small by auto using lor_small.
  rewrite Z.land_lor_distr_r, Z.lor_eq_0_iff.
  destruct (Z.eq_dec (Z.land mask p) 0), (Z.eq_dec (Z.land mask q) 0); tauto.
Qed.

(** A required flag that combines several bits is not checked bit by bit.
    With masks and flags below [2^31], the flag [p | q] given as one element
    is refused as soon as the deny mask of the selected overwrite contains
    one of [p], [q]; otherwise it passes as soon as the allow mask contains
    one of them, the other one being neither allowed nor asked about. *)
Theorem combined_flag_decided_by_any_bit data (channel : Channel PermissionList)
    id ow p q (w : World PermissionList) :
  0 <= Perm.allow ow < 2 ^ 31 -> 0 <= Perm.deny ow < 2 ^ 31 ->
  0 <= p < 2 ^ 31 -> 0 <= q < 2 ^ 31 ->
  selects (overwrites_of data) id (guildID channel) (Some ow) ->
  (contains (Perm.deny ow) p \/ contains (Perm.deny ow) q ->
     hasPermission data channel id [Z.lor p q] w = (Returned false, w)) /\
  (~ contains (Perm.deny ow) p -> ~ contains (Perm.deny ow) q ->
   contains (Perm.allow ow) p \/ contains (Perm.allow ow) q ->
     hasPermission data channel id [Z.lor p q] w = (Returned true, w)).
Proof.
  intros Hallow Hdeny Hp Hq Hsel.
  unfold hasPermission. rewrite (selected_overwrite _ _ _ _ Hsel).
  simpl. unfold bind, check_flag.
  split.
  - intros Hd. apply (contains_lor _ p q Hdeny Hp Hq) in Hd.
    apply truthy_number_spec in Hd. by rewrite Hd.
  - intros Hd1 Hd2 Ha.
    assert (Hd : truthy_number (bitand (Perm.deny ow) (Z.lor p q)) = false).
    { destruct (truthy_number (bitand (Perm.deny ow) (Z.lor p q))) eqn:E;
        [| done].
      apply truthy_number_spec, (contains_lor _ p q Hdeny Hp Hq) in E. tauto. }
    apply (contains_lor _ p q Hallow Hp Hq), truthy_number_spec in Ha.
    by rewrite Hd, Ha.
Qed.

(** No mask contains a flag that is a multiple of [2^32]: the operands of
    [&] are cut to 32 bits. *)
Lemma high_flag_not_contained mask k : ~ contains mask (k * 2 ^ 32).
Proof.
  unfold contains, bitand, ToInt32. rewrite Z.mod_mul by lia.
  simpl. rewrite Z.land_0_r. tauto.
Qed.

(** A flag whose bits all lie at position 32 or above escapes the
    overwrites: whatever the allow and deny masks of the selected overwrite
    hold, also at those positions, the answer for that flag is the oracle's
    on a channel with a guild id, after exactly that question, and false on
    a channel without one. *)
Theorem flags_above_32_bits_left_to_oracle data
    (channel : Channel PermissionList) id ow k (w : World PermissionList) :
  selects (overwrites_of data) id (guildID channel) (Some ow) ->
  (forall g, guild_set (guildID channel) g ->
     hasPermission data channel id [k * 2 ^ 32] w =
       (Returned (botHasPermission g [k * 2 ^ 32]),
        log (OracleCall g [k * 2 ^ 32] (botHasPermission g [k * 2 ^ 32])) w)) /\
  (guildID channel = None ->
     hasPermission data channel id [k * 2 ^ 32] w = (Returned false, w)).
Proof.
  intros Hsel.
  unfold hasPermission. rewrite (selected_overwrite _ _ _ _ Hsel).
  simpl. unfold bind, check_flag.
  assert (Hnone : forall mask,
    truthy_number (bitand mask (k * 2 ^ 32)) = false).
  { intros mask.
    destruct (truthy_number (bitand mask (k * 2 ^ 32))) eqn:E; [| done].
    apply truthy_number_spec in E. by destruct (high_flag_not_contained _ _ E). }
  pose proof (Hnone (Perm.deny ow)) as Hd.
  pose proof (Hnone (Perm.allow ow)) as Ha.
  rewrite Hd, Ha. split.
  - intros g Hg. apply guild_set_truthy in Hg as [-> ->].
    unfold call_botHasPermission.
    by destruct (botHasPermission g [k * 2 ^ 32]).
  - by intros ->.
Qed.

(** ** Every action *)

(** Whatever the channel, the arguments and the answers of the oracle and
    of the transport, a method sends at most one request and never touches
    the cache.  When it throws an error of its own, it has sent nothing,
    logged no warning and changed no array.  No method but [deleteMessages]
    ever changes an array or logs a warning, and none asks the oracle more
    than two questions. *)
Theorem action_sends_at_most_one_request data a (w : World PermissionList) :
  exists o w',
    perform data a w = (o, w') /\
    cache w' = cache w /\
    (transport_calls (trace w') = transport_calls (trace w) \/
     exists r, transport_calls (trace w') = transport_calls (trace w) ++ [r]) /\
    (forall e, o = Thrown (Error e) ->
       transport_calls (trace w') = transport_calls (trace w) /\
       arrays w' = arrays w /\
       warnings (trace w') = warnings (trace w)) /\
    ((forall ids reason, a <> DeleteMessages ids reason) ->
       arrays w' = arrays w /\ warnings (trace w') = warnings (trace w)) /\
    (length (oracle_calls (trace w')) <= length (oracle_calls (trace w)) + 2)%nat.
Proof.
  destruct (perform data a w) as [o w'] eqn:E. exists o, w'. split; [done |].
  destruct a as [mid | options | | content | ids reason | | options | | options];
    unfold perform, discard, getMessage, getMessages, getPins, sendMessage,
      deleteMessages, getInvites, createInvite, getWebhooks, edit in E;
    cbv zeta in E;
    unfold when_truthy, bind, ret, throw, when, require, call_botHasPermission,
      RequestManager_get, RequestManager_post, RequestManager_patch, send,
      await, map_createMessage, array_length, array_splice, logYellow in E;
    simpl in E;
    repeat (first
      [ match goal with
        | H : arrays ?w0 !! ?i = _ |- _ => rewrite H in E
        end
      | match type of E with
        | context [Data.guild_id data] => destruct (Data.guild_id data) as [g |]
        | context [truthy_string ?g] => destruct (truthy_string g)
        | context [botHasPermission ?g ?ps] => destruct (botHasPermission g ps)
        | context [truthy_opt truthy_bool ?t] => destruct (truthy_opt truthy_bool t)
        | context [limit_exceeded ?o] => destruct (limit_exceeded o)
        | context [too_long ?c] => destruct (too_long c)
        | context [RequestManager ?r] =>
            destruct (RequestManager r) as [payload | failure]
        | context [match ?p with JNull => _ | _ => _ end] => destruct p
        | context [arrays ?w0 !! ?i] => destruct (arrays w0 !! i) as [l |] eqn:Hl
        | context [(?n <? ?m)%nat] => destruct (n <? m)%nat
        end ]; simpl in E);
    inversion E; subst; clear E; simpl;
    rewrite ?transport_calls_log_request, ?transport_calls_log_warning,
      ?transport_calls_log_oracle, ?warnings_log_request, ?warnings_log_oracle,
      ?oracle_calls_log_request, ?oracle_calls_log_warning,
      ?oracle_calls_log_oracle, ?length_app;
    simpl;
    (split; [done |]);
    (split; [first [by left | right; eexists; reflexivity] |]);
    (split; [first [by intros e [=] | done] |]);
    (split; [first [done | intros Hnot; by destruct (Hnot ids reason)] | lia]).
Qed.

End Coverage.

(** ** Closed instances of the above *)

(** On the guild channel with nothing granted, [getMessage] stops at
    VIEW_CHANNEL; with VIEW_CHANNEL granted it stops at
    READ_MESSAGE_HISTORY. *)
Lemma read_guard_reports_first_missing_witness :
  getMessage (C := test_client grant_none) guild_payload "5" empty_world =
    (Thrown (Error MISSING_VIEW_CHANNEL),
     log (OracleCall "1" [1024] false) empty_world) /\
  getMessages (C := test_client grant_view_and_send) guild_payload None empty_world =
    (Thrown (Error MISSING_READ_MESSAGE_HISTORY),
     log (OracleCall "1" [65536] false)
       (log (OracleCall "1" [1024] true) empty_world)).
Proof.
  split.
  - destruct (read_guard_reports_first_missing (C := test_client grant_none)
                guild_payload "1" "5" None empty_world) as [H _].
    { split; [reflexivity | discriminate]. }
    exact (proj1 (H eq_refl)).
  - destruct (read_guard_reports_first_missing (C := test_client grant_view_and_send)
                guild_payload "1" "5" None empty_world) as [_ H].
    { split; [reflexivity | discriminate]. }
    exact (proj2 (H eq_refl eq_refl)).
Defined.

Lemma getMessage_dispatch_witness :
  exists w',
    getMessage (C := array_client grant_all) guild_payload "5" empty_world =
      (Returned (JObject [("message", JArray [JString "a"; JString "b"])]), w') /\
    transport_calls (trace w') = [message_request guild_payload "5"].
Proof.
  destruct (getMessage_dispatch (C := array_client grant_all) guild_payload "5"
              empty_world) as (w' & E & Ht & _).
  - intros g _. split; reflexivity.
  - exists w'. split; [exact E | exact Ht].
Defined.

(** A limit of 0 is falsy: the request is sent and the two payloads come
    back as two messages. *)
Lemma getMessages_maps_messages_witness :
  (getMessages (C := array_client grant_all) guild_payload
     (Some {| Opt.limit := Some 0; Opt.after := None;
              Opt.before := None; Opt.around := None |}) empty_world).1 =
  Returned (Some [JObject [("message", JString "a")];
                  JObject [("message", JString "b")]]).
Proof.
  apply (getMessages_maps_messages (C := array_client grant_all)).
  - intros g _. split; reflexivity.
  - right. exists 0. split; [reflexivity | lia].
Defined.

(** A content of exactly 2000 characters is sent. *)
Lemma sendMessage_dispatch_witness :
  exists w',
    sendMessage (C := test_client grant_all) guild_payload
      (inl (long_content 2000)) empty_world = (Returned (JArray []), w') /\
    transport_calls (trace w') =
      [send_request guild_payload (inl (long_content 2000))].
Proof.
  destruct (sendMessage_dispatch (C := test_client grant_all) guild_payload
              (inl (long_content 2000)) empty_world) as (w' & E & Ht & _).
  - intros g _. split; [reflexivity | intros _; reflexivity].
  - intros s [= <-]. apply Nat.leb_le. vm_compute. reflexivity.
  - exists w'. split; [exact E | exact Ht].
Defined.

(** SEND_MESSAGES granted, SEND_TTS_MESSAGES not: a [tts] message is
    refused. *)
Lemma sendMessage_tts_guard_witness :
  sendMessage (C := test_client grant_view_and_send) guild_payload
    (inr {| Msg.content := Some "hello"; Msg.tts := Some true |}) empty_world =
  (Thrown (Error MISSING_SEND_TTS_MESSAGE),
   log (OracleCall "1" [4096] false)
     (log (OracleCall "1" [2048] true) empty_world)).
Proof.
  destruct (sendMessage_tts_guard (C := test_client grant_view_and_send)
              guild_payload "1"
              (inr {| Msg.content := Some "hello"; Msg.tts := Some true |})
              empty_world) as (_ & H & _).
  { split; [reflexivity | discriminate]. }
  exact (H eq_refl eq_refl eq_refl).
Defined.

(** Refused on 150 ids: the array still holds the 150 ids and no warning
    was logged. *)
Lemma deleteMessages_failure_keeps_ids_witness :
  arrays (deleteMessages (C := test_client grant_none) guild_payload 0 None
            (world_with_ids (message_ids 150))).2 !! 0%nat =
    Some (message_ids 150) /\
  warnings (trace (deleteMessages (C := test_client grant_none) guild_payload
                     0 None (world_with_ids (message_ids 150))).2) = [].
Proof.
  destruct (deleteMessages_failure_keeps_ids (C := test_client grant_none)
              guild_payload 0 None (world_with_ids (message_ids 150))
              (message_ids 150)
              (Error MISSING_MANAGE_MESSAGES)
              (log (OracleCall "1" [8192] false) (world_with_ids (message_ids 150)))
              eq_refl eq_refl) as (Ha & _ & _ & Hw & _).
  split.
  - change (arrays (log (OracleCall "1" [8192] false)
                      (world_with_ids (message_ids 150))) !! 0%nat =
            Some (message_ids 150)).
    rewrite Ha. reflexivity.
  - change (warnings (trace (log (OracleCall "1" [8192] false)
                               (world_with_ids (message_ids 150)))) = []).
    rewrite Hw. reflexivity.
Defined.

(** Twice on 150 ids: the second call sends the last 50 and the array ends
    empty; twice on 3 ids: the second call throws. *)
Lemma deleteMessages_twice_witness :
  (exists o w',
     (deleteMessages (C := test_client grant_all) guild_payload 0 None ;;;
      deleteMessages (C := test_client grant_all) guild_payload 0 None)
       (world_with_ids (message_ids 150)) = (o, w') /\
     o = Returned (Resolved (JArray [])) /\
     length (transport_calls (trace w')) = 2%nat /\
     arrays w' !! 0%nat = Some (drop 200 (message_ids 150)) /\
     drop 200 (message_ids 150) = []) /\
  (exists o w',
     (deleteMessages (C := test_client grant_all) guild_payload 0 None ;;;
      deleteMessages (C := test_client grant_all) guild_payload 0 None)
       (world_with_ids (message_ids 3)) = (o, w') /\
     o = Thrown (Error DELETE_MESSAGES_MIN) /\
     length (transport_calls (trace w')) = 1%nat).
Proof.
  split.
  - destruct (deleteMessages_twice (C := test_client grant_all) guild_payload
                0 None None (world_with_ids (message_ids 150)) (message_ids 150)
                eq_refl (fun _ _ => eq_refl)) as (o & w' & E & _ & Hlong).
    { apply Nat.leb_le. vm_compute. reflexivity. }
    destruct Hlong as (Ho & Ht & Ha).
    { apply Nat.leb_le. vm_compute. reflexivity. }
    exists o, w'. split; [exact E |]. split; [exact Ho |].
    split; [rewrite Ht; reflexivity |]. split; [exact Ha | reflexivity].
  - destruct (deleteMessages_twice (C := test_client grant_all) guild_payload
                0 None None (world_with_ids (message_ids 3)) (message_ids 3)
                eq_refl (fun _ _ => eq_refl)) as (o & w' & E & Hshort & _).
    { apply Nat.leb_le. vm_compute. reflexivity. }
    destruct Hshort as (Ho & Ht & _).
    { apply Nat.ltb_lt. vm_compute. reflexivity. }
    exists o, w'. split; [exact E |]. split; [exact Ho |].
    rewrite Ht. reflexivity.
Defined.

(** Actor 2 on the guild channel, whose overwrite allows VIEW_CHANNEL only
    and whose oracle grants nothing: the combined flag 1024 | 2048 passes,
    the two flags given separately do not. *)
Lemma combined_flag_decided_by_any_bit_witness :
  hasPermission (C := test_client grant_none) guild_payload
    (channel_object (C := test_client grant_none) guild_payload)
    "2" [Z.lor 1024 2048] empty_world = (Returned true, empty_world) /\
  (hasPermission (C := test_client grant_none) guild_payload
     (channel_object (C := test_client grant_none) guild_payload)
     "2" [1024; 2048] empty_world).1 = Returned false.
Proof.
  split; [| vm_compute; reflexivity].
  destruct (combined_flag_decided_by_any_bit (C := test_client grant_none)
              guild_payload
              (channel_object (C := test_client grant_none) guild_payload)
              "2" {| Perm.id := "1"; Perm.allow := 1024; Perm.deny := 0 |}
              1024 2048 empty_world) as [_ H].
  - vm_compute. split; [discriminate | reflexivity].
  - vm_compute. split; [discriminate | reflexivity].
  - vm_compute. split; [discriminate | reflexivity].
  - vm_compute. split; [discriminate | reflexivity].
  - exact (lookup_selects guild_payload
             (channel_object (C := test_client grant_none) guild_payload) "2").
  - apply H.
    + intros Hc. apply Hc. reflexivity.
    + intros Hc. apply Hc. reflexivity.
    + left. vm_compute. discriminate.
Defined.

(** The overwrite of guild 1 denies bit 32; the flag [2^32] is granted all
    the same, by the oracle. *)
Lemma flags_above_32_bits_left_to_oracle_witness :
  Z.land 4294967296 (1 * 2 ^ 32) <> 0 /\
  hasPermission (C := test_client grant_all) wide_payload
    (channel_object (C := test_client grant_all) wide_payload)
    "1" [1 * 2 ^ 32] empty_world =
  (Returned true, log (OracleCall "1" [1 * 2 ^ 32] true) empty_world).
Proof.
  split; [vm_compute; discriminate |].
  destruct (flags_above_32_bits_left_to_oracle (C := test_client grant_all)
              wide_payload
              (channel_object (C := test_client grant_all) wide_payload)
              "1" {| Perm.id := "1"; Perm.allow := 0; Perm.deny := 4294967296 |}
              1 empty_world) as [H _].
  - exact (lookup_selects wide_payload
             (channel_object (C := test_client grant_all) wide_payload) "1").
  - apply (H "1"). split; [reflexivity | discriminate].
Defined.
